(** * Scroll spy of the Craftivo page: a model of [script.js]

    The script is glue over two host interfaces: selector lookup in the
    document and an intersection observer.  The development embeds

    - the part of the document the script reads and writes: elements in
      document order with their local name, attributes and class list;
    - the selector texts the script hands to [querySelector], parsed by a
      small selector reader with three outcomes (parsed, syntax error,
      outside the modelled fragment);
    - the script itself as a state-and-exception computation over a
      [World]: the top-level code, the two click handlers and the
      observer callback. *)

From Stdlib Require Import ZArith QArith String Ascii List Bool Lia.
From stdpp Require Import base list.
Import ListNotations.
Local Open Scope string_scope.
Local Open Scope nat_scope.

(** ** Characters *)

Module Chars.

Definition code (c : ascii) : nat := nat_of_ascii c.

Definition isDigit (c : ascii) : bool := (48 <=? code c) && (code c <=? 57).
Definition isUpper (c : ascii) : bool := (65 <=? code c) && (code c <=? 90).
Definition isLower (c : ascii) : bool := (97 <=? code c) && (code c <=? 122).
Definition isLetter (c : ascii) : bool := isUpper c || isLower c.

(** First character of an identifier of the modelled fragment. *)
Definition isNameStart (c : ascii) : bool := isLetter c || (code c =? 95).

(** Later characters of such an identifier. *)
Definition isNameChar (c : ascii) : bool :=
  isNameStart c || isDigit c || (code c =? 45).

Definition isQuote (c : ascii) : bool := code c =? 34.
Definition isBackslash (c : ascii) : bool := code c =? 92.
Definition isNul (c : ascii) : bool := code c =? 0.

(** Line feed, form feed and carriage return end a quoted string early. *)
Definition isNewline (c : ascii) : bool :=
  (code c =? 10) || (code c =? 12) || (code c =? 13).

Definition toLower (c : ascii) : ascii :=
  if isUpper c then ascii_of_nat (code c + 32) else c.

End Chars.

Fixpoint lowercase (s : string) : string :=
  match s with
  | EmptyString => EmptyString
  | String c r => String (Chars.toLower c) (lowercase r)
  end.

(** ** Selectors *)

(** The four shapes of selector the script can build from literals and
    from well-formed attribute values. *)
Inductive Selector : Type :=
  | TypeSel (name : string)                 (* section *)
  | ClassSel (cls : string)                 (* .nav-link *)
  | IdSel (id : string)                     (* #home *)
  | ClassAttrSel (cls attr val : string).   (* .nav-link[data-target="v"] *)

(** Reading a selector text either gives a selector, or is a syntax
    error for certain, or leaves the fragment modelled here. *)
Inductive Parse : Type :=
  | Parsed (s : Selector)
  | Invalid
  | Unmodelled.

Fixpoint allNameChars (s : string) : bool :=
  match s with
  | EmptyString => true
  | String c r => Chars.isNameChar c && allNameChars r
  end.

Definition isIdent (s : string) : bool :=
  match s with
  | EmptyString => false
  | String c r => Chars.isNameStart c && allNameChars r
  end.

(** Longest prefix of name characters, and what follows it. *)
Fixpoint spanName (s : string) : string * string :=
  match s with
  | EmptyString => (EmptyString, EmptyString)
  | String c r =>
      if Chars.isNameChar c
      then let '(n, rest) := spanName r in (String c n, rest)
      else (EmptyString, s)
  end.

Inductive Scan : Type :=
  | ScanClosed (value rest : string)
  | ScanBad
  | ScanUnmodelled.

(** Body of a double-quoted string, read after the opening quote: plain
    characters up to the closing quote.  A line break before the closing
    quote makes a bad string; a backslash (escape), a NUL (replaced by the
    reader) or the end of the text are outside the fragment. *)
Fixpoint scanString (s : string) : Scan :=
  match s with
  | EmptyString => ScanUnmodelled
  | String c r =>
      if Chars.isQuote c then ScanClosed EmptyString r
      else if Chars.isNewline c then ScanBad
      else if Chars.isBackslash c || Chars.isNul c then ScanUnmodelled
      else match scanString r with
           | ScanClosed v rest => ScanClosed (String c v) rest
           | ScanBad => ScanBad
           | ScanUnmodelled => ScanUnmodelled
           end
  end.

(** [[attr="value"]] after a class selector; [s] starts after the bracket. *)
Definition parseAttr (cls s : string) : Parse :=
  let '(attr, rest) := spanName s in
  if negb (isIdent attr) then Unmodelled
  else match rest with
       | String e (String q body) =>
           if (Chars.code e =? 61) && Chars.isQuote q then
             match scanString body with
             | ScanClosed v after =>
                 match after with
                 | String b EmptyString =>
                     if Chars.code b =? 93 then Parsed (ClassAttrSel cls attr v)
                     else Unmodelled
                 | String q' _ =>
                     (* a second string where the bracket must close *)
                     if Chars.isQuote q' then Invalid else Unmodelled
                 | EmptyString => Unmodelled
                 end
             | ScanBad => Invalid
             | ScanUnmodelled => Unmodelled
             end
           else Unmodelled
       | _ => Unmodelled
       end.

Definition parseSelector (s : string) : Parse :=
  match s with
  | EmptyString => Invalid
  | String c r =>
      if Chars.code c =? 35 then                                  (* # *)
        match r with
        | EmptyString => Invalid
        | String d _ =>
            if isIdent r then Parsed (IdSel r)
            else if Chars.isDigit d then Invalid
            else Unmodelled
        end
      else if Chars.code c =? 46 then                             (* . *)
        let '(cls, rest) := spanName r in
        if negb (isIdent cls) then Unmodelled
        else match rest with
             | EmptyString => Parsed (ClassSel cls)
             | String b body =>
                 if Chars.code b =? 91 then parseAttr cls body    (* [ *)
                 else Unmodelled
             end
      else if isIdent s then Parsed (TypeSel (lowercase s))
      else Unmodelled
  end.

(** A value that can be put between double quotes as it is. *)
Fixpoint quotable (s : string) : bool :=
  match s with
  | EmptyString => true
  | String c r =>
      negb (Chars.isQuote c || Chars.isNewline c
            || Chars.isBackslash c || Chars.isNul c)
      && quotable r
  end.

(** The text of the template literal of [setActiveLink]:
    [.nav-link[data-target="${sectionId}"]]. *)
Definition dquote : ascii := "034"%char.

Definition dataTargetSelector (sectionId : string) : string :=
  ".nav-link[data-target=" ++ String dquote (sectionId ++ String dquote "]").

(** ** The document *)

(** An element as far as the script can tell elements apart: its local
    name (lower case, as the host stores it for HTML elements), its
    attributes other than [class], and the tokens of its class list. *)
Record Element : Type := mkElement {
  localName : string;
  attributes : list (string * string);
  classList : list string
}.

Fixpoint assoc (name : string) (l : list (string * string)) : option string :=
  match l with
  | [] => None
  | (k, v) :: r => if String.eqb k name then Some v else assoc name r
  end.

Definition attr (name : string) (e : Element) : option string :=
  assoc name (attributes e).

Definition hasClass (c : string) (e : Element) : bool :=
  existsb (String.eqb c) (classList e).

(** [classList.add]: the token is appended unless it is there already. *)
Definition addClass (c : string) (e : Element) : Element :=
  if hasClass c e then e
  else mkElement (localName e) (attributes e) (classList e ++ [c])%list.

(** [classList.remove]: every occurrence of the token goes. *)
Definition removeClass (c : string) (e : Element) : Element :=
  mkElement (localName e) (attributes e)
    (List.filter (fun t => negb (String.eqb c t)) (classList e)).

Definition attrIs (name value : string) (e : Element) : bool :=
  match attr name e with
  | Some v => String.eqb v value
  | None => false
  end.

(** Does the element match?  Identifiers, class names and attribute
    values are compared letter for letter, as in a document that is not
    in quirks mode. *)
Definition matches (s : Selector) (e : Element) : bool :=
  match s with
  | TypeSel n => String.eqb (localName e) n
  | ClassSel c => hasClass c e
  | IdSel i => attrIs "id" i e
  | ClassAttrSel c a v => hasClass c e && attrIs a v e
  end.

(** Positions, counted from [i], of the elements that satisfy [p]: the
    document is the list of its elements in tree order, and an element
    reference is a position in it. *)
Fixpoint matchingFrom (p : Element -> bool) (i : nat) (doc : list Element)
  : list nat :=
  match doc with
  | [] => []
  | e :: r => if p e then i :: matchingFrom p (S i) r
              else matchingFrom p (S i) r
  end.

Definition selectAll (s : Selector) (doc : list Element) : list nat :=
  matchingFrom (matches s) 0 doc.

(** ** Observer options *)

Inductive Length : Type :=
  | Px (n : Z)
  | Percent (n : Z).

Record RootMargin : Type := mkRootMargin {
  marginTop : Length;
  marginRight : Length;
  marginBottom : Length;
  marginLeft : Length
}.

Record ObserverOptions : Type := mkObserverOptions {
  root : option nat;        (* null: the viewport *)
  rootMargin : string;
  threshold : Q
}.

Definition observerOptions : ObserverOptions :=
  {| root := None;
     rootMargin := "-70% 0px -70% 0px";
     threshold := 0%Q |}.

Fixpoint tokens (s : string) : list string :=
  match s with
  | EmptyString => [EmptyString]
  | String c r =>
      if Ascii.eqb c " " then EmptyString :: tokens r
      else match tokens r with
           | t :: ts => String c t :: ts
           | [] => [String c EmptyString]
           end
  end.

Definition words (s : string) : list string :=
  List.filter (fun t => negb (String.eqb t EmptyString)) (tokens s).

(** Value of a run of decimal digits read after [acc]. *)
Fixpoint digitsFrom (acc : Z) (s : string) : option (Z * string) :=
  match s with
  | EmptyString => Some (acc, EmptyString)
  | String c r =>
      if Chars.isDigit c
      then digitsFrom (10 * acc + Z.of_nat (Chars.code c - 48))%Z r
      else Some (acc, s)
  end.

Definition parseUnsigned (s : string) : option Length :=
  match s with
  | EmptyString => None
  | String c _ =>
      if Chars.isDigit c then
        match digitsFrom 0%Z s with
        | Some (n, unit) =>
            if String.eqb unit "%" then Some (Percent n)
            else if String.eqb unit "px" then Some (Px n)
            else None
        | None => None
        end
      else None
  end.

Definition negateLength (l : Length) : Length :=
  match l with
  | Px n => Px (- n)
  | Percent n => Percent (- n)
  end.

(** A whole number of pixels or per cent, with an optional minus sign. *)
Definition parseLength (s : string) : option Length :=
  match s with
  | String c r =>
      if Ascii.eqb c "-" then option_map negateLength (parseUnsigned r)
      else parseUnsigned s
  | EmptyString => None
  end.

(** The margin shorthand: one to four lengths, read as for CSS margins. *)
Definition parseRootMargin (s : string) : option RootMargin :=
  match List.map parseLength (words s) with
  | [Some a] => Some (mkRootMargin a a a a)
  | [Some a; Some b] => Some (mkRootMargin a b a b)
  | [Some a; Some b; Some c] => Some (mkRootMargin a b c b)
  | [Some a; Some b; Some c; Some d] => Some (mkRootMargin a b c d)
  | _ => None
  end.

(** Lengths are resolved in hundredths of a pixel so that per cent of a
    whole number of pixels stays exact. *)
Definition resolve (l : Length) (extent : Z) : Z :=
  match l with
  | Px n => 100 * n
  | Percent p => p * extent
  end.

(** Vertical extent of the root intersection rectangle for a viewport
    [height] pixels high whose top is at 0.  A margin grows the rectangle
    outwards, so a negative one moves the edge inwards: the top edge goes
    down by the top margin.  The height is what the two margins leave of
    the viewport, and never less than nothing: a rectangle shrunk by more
    than its height is empty and sits at its top edge. *)
Definition bandTop (m : RootMargin) (height : Z) : Z :=
  (0 - resolve (marginTop m) height)%Z.

Definition bandHeight (m : RootMargin) (height : Z) : Z :=
  Z.max 0 (100 * height + resolve (marginTop m) height
           + resolve (marginBottom m) height)%Z.

Definition bandBottom (m : RootMargin) (height : Z) : Z :=
  (bandTop m height + bandHeight m height)%Z.

(** Does a section that reaches from [top] to [bottom] (hundredths of a
    pixel below the viewport top) meet the band?  With the threshold 0 of
    the options a shared edge counts, and so does meeting a band of no
    height. *)
Definition meetsBand (m : RootMargin) (height top bottom : Z) : bool :=
  ((top <=? bandBottom m height) && (bandTop m height <=? bottom))%Z.

Record Observer : Type := mkObserver {
  observerRoot : option nat;
  observerMargin : RootMargin;
  observerThreshold : Q
}.

(** ** The world of the script *)

Inductive Handler : Type :=
  | NavClick (link : nat)
  | LogoClick.

Record ScrollIntoViewOptions : Type := mkScrollOptions {
  behavior : string;
  block : string
}.

Inductive Effect : Type :=
  | PreventDefault
  | ScrollIntoView (target : nat) (options : ScrollIntoViewOptions).

(** The two exceptions the host can raise here: a member read on [null],
    and a selector text that is not a selector. *)
Inductive Exception : Type :=
  | TypeError
  | SyntaxError.

Record World : Type := mkWorld {
  document : list Element;
  scrollY : Z;                        (* where the page is scrolled to *)
  sections : list nat;                (* const sections *)
  navLinks : list nat;                (* const navLinks *)
  observer : option Observer;         (* const observer *)
  observed : list nat;
  listeners : list (nat * Handler);   (* click listeners, oldest first *)
  effects : list Effect               (* calls into the host, oldest first *)
}.

(** The page before the script has run. *)
Definition page (doc : list Element) (y : Z) : World :=
  mkWorld doc y [] [] None [] [] [].

Definition withDocument (d : list Element) (w : World) : World :=
  mkWorld d (scrollY w) (sections w) (navLinks w) (observer w)
          (observed w) (listeners w) (effects w).

(** ** Computations *)

Inductive Completion (A : Type) : Type :=
  | Normal (a : A) (w : World)
  | Throw (e : Exception) (w : World)
  | Unknown.                (* a text outside the modelled fragment *)

Arguments Normal {A} a w.
Arguments Throw {A} e w.
Arguments Unknown {A}.

Definition M (A : Type) : Type := World -> Completion A.

Definition ret {A : Type} (a : A) : M A := fun w => Normal a w.

Definition bind {A B : Type} (c : M A) (k : A -> M B) : M B :=
  fun w =>
    match c w with
    | Normal a w' => k a w'
    | Throw e w' => Throw e w'
    | Unknown => Unknown
    end.

Definition throw {A : Type} (e : Exception) : M A := fun w => Throw e w.

Notation "'let!' x ':=' c 'in' k" := (bind c (fun x => k))
  (at level 10, x name, c at level 100, k at level 200).
Notation "c '>>' k" := (bind c (fun _ => k))
  (at level 100, k at level 200, right associativity).

Fixpoint forEach {A : Type} (f : A -> M unit) (l : list A) : M unit :=
  match l with
  | [] => ret tt
  | x :: r => f x >> forEach f r
  end.

(** The world a computation leaves behind, whether it returned or threw. *)
Definition after {A : Type} (c : Completion A) : option World :=
  match c with
  | Normal _ w => Some w
  | Throw _ w => Some w
  | Unknown => None
  end.

(** ** Host interface *)

Definition querySelectorAll (text : string) : M (list nat) :=
  fun w =>
    match parseSelector text with
    | Parsed s => Normal (selectAll s (document w)) w
    | Invalid => Throw SyntaxError w
    | Unmodelled => Unknown
    end.

Definition querySelector (text : string) : M (option nat) :=
  let! all := querySelectorAll text in ret (head all).

(** [null] when the attribute is absent.  The script only holds
    references it got from a lookup; a position outside the document
    reads as an element without attributes. *)
Definition getAttribute (name : string) (el : nat) : M (option string) :=
  fun w =>
    Normal (match document w !! el with
            | Some e => attr name e
            | None => None
            end) w.

(** What a string position makes of [null]. *)
Definition toJSString (v : option string) : string :=
  match v with
  | Some s => s
  | None => "null"
  end.

Definition classList_add (c : string) (el : nat) : M unit :=
  fun w => Normal tt (withDocument (alter (addClass c) el (document w)) w).

Definition classList_remove (c : string) (el : nat) : M unit :=
  fun w => Normal tt (withDocument (alter (removeClass c) el (document w)) w).

Definition addEventListener (el : nat) (h : Handler) : M unit :=
  fun w =>
    Normal tt (mkWorld (document w) (scrollY w) (sections w) (navLinks w)
                       (observer w) (observed w)
                       (listeners w ++ [(el, h)])%list (effects w)).

Definition emit (e : Effect) : M unit :=
  fun w =>
    Normal tt (mkWorld (document w) (scrollY w) (sections w) (navLinks w)
                       (observer w) (observed w) (listeners w)
                       (effects w ++ [e])%list).

Definition preventDefault : M unit := emit PreventDefault.

Definition scrollIntoView (el : nat) (o : ScrollIntoViewOptions) : M unit :=
  emit (ScrollIntoView el o).

Definition newIntersectionObserver (o : ObserverOptions) : M unit :=
  fun w =>
    match parseRootMargin (rootMargin o) with
    | Some m =>
        Normal tt (mkWorld (document w) (scrollY w) (sections w) (navLinks w)
                           (Some (mkObserver (root o) m (threshold o)))
                           (observed w) (listeners w) (effects w))
    | None => Unknown
    end.

Definition observe (el : nat) : M unit :=
  fun w =>
    Normal tt (mkWorld (document w) (scrollY w) (sections w) (navLinks w)
                       (observer w) (observed w ++ [el])%list
                       (listeners w) (effects w)).

Definition setCollections (ss ls : list nat) : M unit :=
  fun w =>
    Normal tt (mkWorld (document w) (scrollY w) ss ls (observer w)
                       (observed w) (listeners w) (effects w)).

(** ** The script *)

Definition smoothToStart : ScrollIntoViewOptions :=
  {| behavior := "smooth"; block := "start" |}.

(** Click listener of a navigation link (lines 18 to 32). *)
Definition navLinkClick (link : nat) : M unit :=
  preventDefault >>
  let! targetId := getAttribute "href" link in
  let! targetSection := querySelector (toJSString targetId) in
  match targetSection with
  | Some t => scrollIntoView t smoothToStart
  | None => ret tt
  end.

Definition removeAllActiveClasses : M unit :=
  fun w => forEach (classList_remove "active") (navLinks w) w.

Definition setActiveLink (sectionId : string) : M unit :=
  let! activeLink := querySelector (dataTargetSelector sectionId) in
  match activeLink with
  | Some l => removeAllActiveClasses >> classList_add "active" l
  | None => ret tt
  end.

Record Entry : Type := mkEntry {
  isIntersecting : bool;
  target : nat
}.

(** The arrow function handed to [entries.forEach] (lines 90 to 99). *)
Definition onEntry (entry : Entry) : M unit :=
  if isIntersecting entry then
    let! sectionId := getAttribute "id" (target entry) in
    setActiveLink (toJSString sectionId)
  else ret tt.

(** Callback of the intersection observer (lines 83 to 100). *)
Definition observerCallback (entries : list Entry) : M unit :=
  forEach onEntry entries.

(** Click listener of the logo (lines 118 to 124): the result of the
    lookup is used as it comes. *)
Definition logoClick : M unit :=
  preventDefault >>
  let! home := querySelector "#home" in
  match home with
  | Some h => scrollIntoView h smoothToStart
  | None => throw TypeError
  end.

Definition runHandler (h : Handler) : M unit :=
  match h with
  | NavClick link => navLinkClick link
  | LogoClick => logoClick
  end.

(** The top-level code, in source order. *)
Definition script : M unit :=
  let! ss := querySelectorAll "section" in
  let! ls := querySelectorAll ".nav-link" in
  setCollections ss ls >>
  forEach (fun link => addEventListener link (NavClick link)) ls >>
  newIntersectionObserver observerOptions >>
  forEach observe ss >>
  (if 0 <? length ls then
     match ls !! 0 with
     | Some first => classList_add "active" first
     | None => throw TypeError
     end
   else ret tt) >>
  let! logo := querySelector ".logo" in
  match logo with
  | Some l => addEventListener l LogoClick
  | None => throw TypeError
  end.

(** ** Observations on a world *)

Definition isActive (w : World) (el : nat) : bool :=
  match document w !! el with
  | Some e => hasClass "active" e
  | None => false
  end.

Definition activeLinks (w : World) : list nat :=
  List.filter (isActive w) (navLinks w).

Definition activeCount (w : World) : nat := length (activeLinks w).

(** The world with further calls into the host on record. *)
Definition addEffects (es : list Effect) (w : World) : World :=
  mkWorld (document w) (scrollY w) (sections w) (navLinks w) (observer w)
          (observed w) (listeners w) (effects w ++ es)%list.

(** What happens on the page once the script has run: a click runs a
    listener that was registered, the observer delivers a batch.  An
    exception of a listener is reported by the host and the page lives on
    in the world the listener left.  A click listener whose lookup text
    is outside the modelled fragment may throw or scroll, whatever the
    host makes of the text; no statement of a click listener writes to
    the document.  A batch is delivered when the callback completes on
    it: the ids of the sections it reports inside are texts the selector
    reader models. *)
Inductive reachable (start : World) : World -> Prop :=
  | reach_script w :
      after (script start) = Some w -> reachable start w
  | reach_click w w' el h :
      reachable start w ->
      In (el, h) (listeners w) ->
      after (runHandler h w) = Some w' ->
      reachable start w'
  | reach_click_outside w el h es :
      reachable start w ->
      In (el, h) (listeners w) ->
      runHandler h w = Unknown ->
      reachable start (addEffects es w)
  | reach_observe w w' entries :
      reachable start w ->
      after (observerCallback entries w) = Some w' ->
      reachable start w'.

(** ** Sample pages *)

Definition navLink (href dataTarget : string) : Element :=
  mkElement "a" [("href", href); ("data-target", dataTarget)] ["nav-link"].

Definition section (id : string) : Element :=
  mkElement "section" [("id", id)] [].

Definition logoTo (href : string) : Element :=
  mkElement "a" [("href", href)] ["logo"].

(** Logo, three links, three sections. *)
Definition samplePage : list Element :=
  [ logoTo "#about";
    navLink "#home" "home"; navLink "#about" "about";
    navLink "#projects" "projects";
    section "home"; section "about"; section "projects" ].

(** ** Notions used in the statements *)

(** Does the selector look at the [active] token? *)
Definition readsActive (s : Selector) : bool :=
  match s with
  | ClassSel c => String.eqb c "active"
  | ClassAttrSel c _ _ => String.eqb c "active"
  | TypeSel _ => false
  | IdSel _ => false
  end.

(** Two elements that differ at most in the [active] token. *)
Definition sameButActive (e e' : Element) : Prop :=
  localName e = localName e' /\
  attributes e = attributes e' /\
  forall c, c <> "active" -> hasClass c e = hasClass c e'.

(** Two worlds that differ at most in which elements carry [active]. *)
Definition marksOnly (w w' : World) : Prop :=
  Forall2 sameButActive (document w) (document w') /\
  w' = withDocument (document w') w.

(** The collection [navLinks] is the one the script took from this
    document. *)
Definition installed (w : World) : Prop :=
  navLinks w = selectAll (ClassSel "nav-link") (document w).

(** The document once [removeAllActiveClasses] has gone through [ls]. *)
Definition strip (c : string) (ls : list nat) (d : list Element)
  : list Element :=
  fold_left (fun d i => alter (removeClass c) i d) ls d.

(** The NavLink whose [data-target] is the given section identifier: the
    first one of the collection. *)
Definition dataTargetIs (w : World) (sectionId : string) (l : nat) : bool :=
  match document w !! l with
  | Some e => attrIs "data-target" sectionId e
  | None => false
  end.

Definition linkOf (w : World) (sectionId : string) : option nat :=
  List.find (dataTargetIs w sectionId) (navLinks w).

Definition sectionIdOf (w : World) (entry : Entry) : option string :=
  match document w !! target entry with
  | Some e => attr "id" e
  | None => None
  end.

(** The NavLink of an entry that reports its section inside the band and
    has a matching NavLink. *)
Definition enteringLink (w : World) (entry : Entry) : option nat :=
  if isIntersecting entry then
    match sectionIdOf w entry with
    | Some sid => linkOf w sid
    | None => None
    end
  else None.

(** Those NavLinks for a whole batch, in the order of the batch. *)
Definition enteringLinks (w : World) (entries : list Entry) : list nat :=
  omap (enteringLink w) entries.

(** The NavLink of the last such entry. *)
Definition winner (w : World) (entries : list Entry) : option nat :=
  last (enteringLinks w entries).

(** An entry whose section, if reported inside, has an identifier that
    can stand between the quotes of the selector as it is; or has none,
    on a page where no NavLink has the [data-target] null. *)
Definition plainEntry (w : World) (entry : Entry) : bool :=
  negb (isIntersecting entry)
  || match sectionIdOf w entry with
     | Some sid => quotable sid
     | None => match linkOf w "null" with
               | Some _ => false
               | None => true
               end
     end.

(** The world once [removeAllActiveClasses] and [classList.add] on [l]
    have run. *)
Definition marked (l : nat) (w : World) : World :=
  withDocument
    (alter (addClass "active") l (strip "active" (navLinks w) (document w))) w.

(** The document once the top-level code has set the first marker. *)
Definition seeded (doc : list Element) : list Element :=
  match selectAll (ClassSel "nav-link") doc with
  | first :: _ => alter (addClass "active") first doc
  | [] => doc
  end.

(** The world the top-level code has built when it looks for the logo. *)
Definition started (doc : list Element) (y : Z) : World :=
  mkWorld (seeded doc) y
          (selectAll (TypeSel "section") doc)
          (selectAll (ClassSel "nav-link") doc)
          (Some (mkObserver (root observerOptions)
                            (mkRootMargin (Percent (-70)) (Px 0)
                                          (Percent (-70)) (Px 0))
                            (threshold observerOptions)))
          (selectAll (TypeSel "section") doc)
          (List.map (fun l => (l, NavClick l))
                    (selectAll (ClassSel "nav-link") doc))
          [].

Definition withListener (el : nat) (h : Handler) (w : World) : World :=
  mkWorld (document w) (scrollY w) (sections w) (navLinks w) (observer w)
          (observed w) (listeners w ++ [(el, h)])%list (effects w).

(** The href a NavLink hands to the lookup. *)
Definition hrefOf (w : World) (link : nat) : option string :=
  match document w !! link with
  | Some e => attr "href" e
  | None => None
  end.

(** Markup in which no NavLink but the first is marked active. *)
Definition unmarkedTail (doc : list Element) : bool :=
  forallb (fun l => match doc !! l with
                    | Some e => negb (hasClass "active" e)
                    | None => true
                    end)
          (tail (selectAll (ClassSel "nav-link") doc)).

(** The sample page once the script has run. *)
Definition sampleStarted : World :=
  withListener 0 LogoClick (started samplePage 0).



(** A page with a bare hash as href, and an href to an identifier that
    starts with a digit. *)
Definition pageHashLink : list Element :=
  [ logoTo "#home"; navLink "#" "home"; navLink "#2024" "about";
    section "home"; section "about" ].

(** A page with a section whose identifier is one double quote. *)
Definition pageQuoteId : list Element :=
  [ logoTo "#home"; navLink "#about" "about"; navLink "#home" "home";
    section (String dquote EmptyString); section "home"; section "about" ].

(** A page whose markup marks two NavLinks active by itself. *)
Definition crowdedPage : list Element :=
  [ logoTo "#home";
    mkElement "a" [("href", "#home"); ("data-target", "home")] ["nav-link"; "active"];
    mkElement "a" [("href", "#about"); ("data-target", "about")] ["nav-link"; "active"];
    navLink "#projects" "projects";
    section "home"; section "about"; section "projects" ].

(** A text that reads as a selector. *)
Definition readable (text : string) : bool :=
  match parseSelector text with
  | Parsed _ => true
  | Invalid => false
  | Unmodelled => false
  end.



(** A page with a NavLink whose [data-target] is the text null and a
    section without id. *)
Definition pageNullTarget : list Element :=
  [ logoTo "#home"; navLink "#home" "home"; navLink "#misc" "null";
    mkElement "section" [] []; section "home" ].

(** The sample page with a section that carries the token active
    itself. *)
Definition decoratedPage : list Element :=
  [ logoTo "#home";
    navLink "#home" "home"; navLink "#about" "about";
    mkElement "section" [("id", "home")] ["hero"; "active"];
    section "about" ].

(** A page with two elements that share the id about, the first of them
    not a section, and a NavLink without href. *)
Definition twinPage : list Element :=
  [ logoTo "#home";
    navLink "#about" "about";
    mkElement "a" [("data-target", "home")] ["nav-link"];
    mkElement "div" [("id", "about")] [];
    section "home"; section "about" ].

(** An entry whose lookup, if the section is reported inside, is given a
    selector text of the modelled fragment: one that reads as a selector
    or one that is a syntax error for certain. *)
Definition withinFragment (w : World) (entry : Entry) : bool :=
  negb (isIntersecting entry)
  || match parseSelector
             (dataTargetSelector (toJSString (sectionIdOf w entry))) with
     | Parsed _ => true
     | Invalid => true
     | Unmodelled => false
     end.

(** The NavLink the lookup of [setActiveLink] finds for the section of an
    entry: the first of the collection whose [data-target] is the id of
    the section (the text null for a section without id), when this text
    can stand between the quotes as it is. *)
Definition foundLink (w : World) (entry : Entry) : option nat :=
  if quotable (toJSString (sectionIdOf w entry))
  then linkOf w (toJSString (sectionIdOf w entry))
  else None.

(** The same for the lookup of a click listener. *)
Definition clickWithinFragment (w : World) (h : Handler) : bool :=
  match h with
  | LogoClick => true
  | NavClick link =>
      match parseSelector (toJSString (hrefOf w link)) with
      | Parsed _ => true
      | Invalid => true
      | Unmodelled => false
      end
  end.

(** The page whose markup marks two NavLinks, with a further section
    that has no NavLink. *)
Definition crowdedImprintPage : list Element :=
  (crowdedPage ++ [section "imprint"])%list.

(** A page with a logo and a section and no NavLink at all. *)
Definition noLinksPage : list Element :=
  [ logoTo "#home"; section "home" ].

(** ** Theory *)

Example parse_section : parseSelector "section" = Parsed (TypeSel "section").
Proof. reflexivity. Qed.

Example parse_nav_link : parseSelector ".nav-link" = Parsed (ClassSel "nav-link").
Proof. reflexivity. Qed.

Example parse_home : parseSelector "#home" = Parsed (IdSel "home").
Proof. reflexivity. Qed.

Example parse_hash_only : parseSelector "#" = Invalid.
Proof. reflexivity. Qed.

Example parse_data_target :
  parseSelector (dataTargetSelector "about")
  = Parsed (ClassAttrSel "nav-link" "data-target" "about").
Proof. reflexivity. Qed.

Example parse_data_target_quote :
  parseSelector (dataTargetSelector (String dquote EmptyString)) = Invalid.
Proof. reflexivity. Qed.

Lemma scanString_quotable (v rest : string) :
  quotable v = true ->
  scanString (v ++ String dquote rest) = ScanClosed v rest.
Proof.
  induction v as [|c v IH]; intros Hq.
  - reflexivity.
  - cbn [quotable] in Hq. apply andb_true_iff in Hq as [Hc Hv].
    apply negb_true_iff in Hc.
    repeat (apply orb_false_iff in Hc as [Hc ?]).
    cbn [append scanString].
    rewrite Hc. cbn [orb].
    replace (Chars.isNewline c) with false by congruence.
    replace (Chars.isBackslash c) with false by congruence.
    replace (Chars.isNul c) with false by congruence.
    cbn [orb]. now rewrite IH.
Qed.

Lemma parse_dataTargetSelector (sectionId : string) :
  quotable sectionId = true ->
  parseSelector (dataTargetSelector sectionId)
  = Parsed (ClassAttrSel "nav-link" "data-target" sectionId).
Proof.
  intros Hq. unfold dataTargetSelector.
  cbn [append]. lazy -[scanString append].
  rewrite (scanString_quotable _ _ Hq). reflexivity.
Qed.

Example parse_logo : parseSelector ".logo" = Parsed (ClassSel "logo").
Proof. reflexivity. Qed.

Example parse_null : parseSelector (toJSString None) = Parsed (TypeSel "null").
Proof. reflexivity. Qed.

Example margin_of_options :
  parseRootMargin (rootMargin observerOptions)
  = Some (mkRootMargin (Percent (-70)) (Px 0) (Percent (-70)) (Px 0)).
Proof. reflexivity. Qed.

Lemma parse_hash_ident (id : string) :
  isIdent id = true -> parseSelector (String "#" id) = Parsed (IdSel id).
Proof.
  intros Hid. destruct id as [|d r]; [discriminate|].
  unfold parseSelector. now rewrite Hid.
Qed.

(** The selector of [setActiveLink], when it is read at all, asks for a
    navigation link by its [data-target]. *)
Lemma parse_dataTargetSelector_shape (sectionId : string) (s : Selector) :
  parseSelector (dataTargetSelector sectionId) = Parsed s ->
  exists v, s = ClassAttrSel "nav-link" "data-target" v.
Proof.
  unfold dataTargetSelector. cbn [append]. lazy -[scanString append].
  destruct (scanString _) as [v rest| |]; try discriminate.
  destruct rest as [|b rest]; try discriminate.
  destruct rest as [|b' rest].
  - destruct b as [[] [] [] [] [] [] [] []]; try discriminate.
    intros [= <-]. eauto.
  - destruct b as [[] [] [] [] [] [] [] []]; discriminate.
Qed.

(** *** Positions of matching elements *)

Lemma matchingFrom_In (p : Element -> bool) (doc : list Element) :
  forall i j,
    In j (matchingFrom p i doc) <->
    i <= j /\ exists e, doc !! (j - i) = Some e /\ p e = true.
Proof.
  induction doc as [|e r IH]; intros i j; cbn [matchingFrom].
  - split; [intros [] | intros [_ (e & He & _)]; discriminate].
  - assert (Hr : In j (matchingFrom p (S i) r) <->
                 S i <= j /\ exists e', (e :: r) !! (j - i) = Some e' /\ p e' = true).
    { rewrite IH. split.
      - intros (Hle & e' & He' & Hp). split; [lia|]. exists e'. split; [|done].
        replace (j - i) with (S (j - S i)) by lia. exact He'.
      - intros (Hle & e' & He' & Hp). split; [lia|]. exists e'. split; [|done].
        replace (j - i) with (S (j - S i)) in He' by lia. exact He'. }
    destruct (p e) eqn:Hpe.
    + cbn [In]. rewrite Hr. split.
      * intros [<- | (Hle & He)].
        -- split; [lia|]. exists e. rewrite Nat.sub_diag. done.
        -- split; [lia | exact He].
      * intros (Hle & e' & He' & Hp).
        destruct (Nat.eq_dec i j) as [->|Hne]; [by left | right].
        split; [lia | eauto].
    + rewrite Hr. split.
      * intros (Hle & He). split; [lia | exact He].
      * intros (Hle & e' & He' & Hp).
        destruct (Nat.eq_dec i j) as [->|Hne].
        -- rewrite Nat.sub_diag in He'. cbn in He'. congruence.
        -- split; [lia | eauto].
Qed.

Lemma matchingFrom_lower (p : Element -> bool) (doc : list Element) i j :
  In j (matchingFrom p i doc) -> i <= j.
Proof. rewrite matchingFrom_In. tauto. Qed.

Lemma matchingFrom_NoDup (p : Element -> bool) (doc : list Element) :
  forall i, List.NoDup (matchingFrom p i doc).
Proof.
  induction doc as [|e r IH]; intros i; cbn [matchingFrom].
  - constructor.
  - destruct (p e); [|apply IH].
    constructor; [|apply IH].
    intros Hin. apply matchingFrom_lower in Hin. lia.
Qed.

Lemma matchingFrom_ext (p q : Element -> bool) (d d' : list Element) :
  Forall2 (fun e e' => p e = q e') d d' ->
  forall i, matchingFrom p i d = matchingFrom q i d'.
Proof.
  induction 1 as [|e e' r r' He _ IH]; intros i; cbn [matchingFrom].
  - reflexivity.
  - rewrite He, !IH. reflexivity.
Qed.

Lemma selectAll_In (s : Selector) (doc : list Element) (j : nat) :
  In j (selectAll s doc) <-> exists e, doc !! j = Some e /\ matches s e = true.
Proof.
  unfold selectAll. rewrite matchingFrom_In, Nat.sub_0_r.
  split; [tauto | intros H; split; [lia | exact H]].
Qed.

(** *** Class lists *)

Lemma hasClass_removeClass (c d : string) (e : Element) :
  hasClass c (removeClass d e) = if String.eqb c d then false else hasClass c e.
Proof.
  unfold hasClass, removeClass. cbn [classList].
  induction (classList e) as [|t l IH]; cbn [List.filter existsb].
  - now destruct (String.eqb c d).
  - destruct (String.eqb d t) eqn:Hdt; cbn [negb existsb].
    + rewrite IH. apply String.eqb_eq in Hdt as ->.
      destruct (String.eqb c t); reflexivity.
    + rewrite IH. destruct (String.eqb c d) eqn:Hcd; [|reflexivity].
      apply String.eqb_eq in Hcd as ->. now rewrite Hdt.
Qed.

Lemma hasClass_addClass (c d : string) (e : Element) :
  hasClass c (addClass d e) = String.eqb c d || hasClass c e.
Proof.
  unfold addClass. destruct (hasClass d e) eqn:Hd.
  - destruct (String.eqb c d) eqn:Hcd; [|reflexivity].
    apply String.eqb_eq in Hcd as ->. now rewrite Hd.
  - unfold hasClass. cbn [classList]. rewrite existsb_app. cbn [existsb].
    rewrite orb_false_r. apply orb_comm.
Qed.

Lemma sameButActive_refl (e : Element) : sameButActive e e.
Proof. repeat split. Qed.

Lemma sameButActive_trans (e1 e2 e3 : Element) :
  sameButActive e1 e2 -> sameButActive e2 e3 -> sameButActive e1 e3.
Proof.
  intros (Hn & Ha & Hc) (Hn' & Ha' & Hc'). repeat split; try congruence.
  intros c Hne. rewrite Hc, Hc'; auto.
Qed.

Lemma sameButActive_removeClass (e : Element) :
  sameButActive e (removeClass "active" e).
Proof.
  repeat split. intros c Hne. rewrite hasClass_removeClass.
  destruct (String.eqb c "active") eqn:Heq; [|reflexivity].
  apply String.eqb_eq in Heq. contradiction.
Qed.

Lemma sameButActive_addClass (e : Element) :
  sameButActive e (addClass "active" e).
Proof.
  split; [|split].
  - unfold addClass. now destruct (hasClass _ e).
  - unfold addClass. now destruct (hasClass _ e).
  - intros c Hne. rewrite hasClass_addClass.
    destruct (String.eqb c "active") eqn:Heq; [|reflexivity].
    apply String.eqb_eq in Heq. contradiction.
Qed.

Lemma matches_sameButActive (s : Selector) (e e' : Element) :
  readsActive s = false -> sameButActive e e' -> matches s e = matches s e'.
Proof.
  intros Hs (Hn & Ha & Hc).
  destruct s as [n|c|i|c a v]; cbn [matches readsActive] in *;
    unfold attrIs, attr; rewrite ?Hn, ?Ha; try reflexivity.
  - apply Hc. intros ->. discriminate.
  - rewrite (Hc c); [reflexivity|]. intros ->. discriminate.
Qed.

Lemma selectAll_sameButActive (s : Selector) (d d' : list Element) :
  readsActive s = false ->
  Forall2 sameButActive d d' -> selectAll s d = selectAll s d'.
Proof.
  intros Hs Hd. apply matchingFrom_ext.
  eapply Forall2_impl; [exact Hd|].
  intros e e' He. now apply matches_sameButActive.
Qed.

Lemma Forall2_sameButActive_refl (d : list Element) :
  Forall2 sameButActive d d.
Proof. induction d; constructor; auto using sameButActive_refl. Qed.

Lemma Forall2_sameButActive_trans (d1 d2 d3 : list Element) :
  Forall2 sameButActive d1 d2 -> Forall2 sameButActive d2 d3 ->
  Forall2 sameButActive d1 d3.
Proof.
  intros H12. revert d3. induction H12; intros d3 H23; inversion H23; subst;
    constructor; eauto using sameButActive_trans.
Qed.

Lemma Forall2_sameButActive_alter (f : Element -> Element) (d d' : list Element) i :
  (forall e, sameButActive e (f e)) ->
  Forall2 sameButActive d d' -> Forall2 sameButActive d (alter f i d').
Proof.
  intros Hf Hd. apply Forall2_alter_r; [exact Hd|].
  intros x y _ _ Hxy. eapply sameButActive_trans; [exact Hxy | apply Hf].
Qed.

Lemma strip_sameButActive (ls : list nat) :
  forall d d', Forall2 sameButActive d d' ->
               Forall2 sameButActive d (strip "active" ls d').
Proof.
  unfold strip. induction ls as [|l ls IH]; intros d d' Hd; cbn [fold_left].
  - exact Hd.
  - apply IH. apply Forall2_sameButActive_alter;
      auto using sameButActive_removeClass.
Qed.

Lemma strip_lookup (c : string) (ls : list nat) (j : nat) :
  forall d,
    strip c ls d !! j
    = if existsb (Nat.eqb j) ls then removeClass c <$> d !! j else d !! j.
Proof.
  unfold strip. induction ls as [|l ls IH]; intros d; cbn [fold_left existsb].
  - reflexivity.
  - rewrite IH. destruct (Nat.eqb j l) eqn:Hjl; cbn [orb].
    + apply Nat.eqb_eq in Hjl as ->. rewrite list_lookup_alter_eq.
      destruct (d !! l) as [e|]; cbn; [|now destruct (existsb _ ls)].
      assert (Hidem : removeClass c (removeClass c e) = removeClass c e).
      { unfold removeClass. cbn [localName attributes classList]. f_equal.
        induction (classList e) as [|t ts IHt]; cbn [List.filter]; [done|].
        destruct (String.eqb c t) eqn:Hct; cbn [negb List.filter];
          [exact IHt | rewrite Hct; cbn [negb]; now f_equal]. }
      rewrite Hidem. now destruct (existsb _ ls).
    + apply Nat.eqb_neq in Hjl.
      rewrite list_lookup_alter_ne by congruence. reflexivity.
Qed.

(** *** Running the marker code *)

Lemma withDocument_same (w : World) : withDocument (document w) w = w.
Proof. now destruct w. Qed.

Lemma withDocument_twice (d d' : list Element) (w : World) :
  withDocument d (withDocument d' w) = withDocument d w.
Proof. reflexivity. Qed.

Lemma forEach_classList_remove (c : string) (ls : list nat) :
  forall w,
    forEach (classList_remove c) ls w
    = Normal tt (withDocument (strip c ls (document w)) w).
Proof.
  induction ls as [|l ls IH]; intros w; cbn [forEach].
  - unfold ret, strip. cbn [fold_left]. now rewrite withDocument_same.
  - unfold bind at 1. unfold classList_remove at 1. rewrite IH. reflexivity.
Qed.

Lemma removeAllActiveClasses_run (w : World) :
  removeAllActiveClasses w
  = Normal tt (withDocument (strip "active" (navLinks w) (document w)) w).
Proof. apply forEach_classList_remove. Qed.

Lemma querySelector_parsed (text : string) (s : Selector) (w : World) :
  parseSelector text = Parsed s ->
  querySelector text w = Normal (head (selectAll s (document w))) w.
Proof.
  intros Hp. unfold querySelector, bind, querySelectorAll. now rewrite Hp.
Qed.

Lemma querySelector_invalid (text : string) (w : World) :
  parseSelector text = Invalid -> querySelector text w = Throw SyntaxError w.
Proof.
  intros Hp. unfold querySelector, bind, querySelectorAll. now rewrite Hp.
Qed.

Lemma querySelector_unmodelled (text : string) (w : World) :
  parseSelector text = Unmodelled -> querySelector text w = Unknown.
Proof.
  intros Hp. unfold querySelector, bind, querySelectorAll. now rewrite Hp.
Qed.

Lemma setActiveLink_found (sid : string) (s : Selector) (w : World) (l : nat) :
  parseSelector (dataTargetSelector sid) = Parsed s ->
  head (selectAll s (document w)) = Some l ->
  setActiveLink sid w = Normal tt (marked l w).
Proof.
  intros Hp Hl. unfold setActiveLink, bind at 1.
  rewrite (querySelector_parsed _ _ _ Hp), Hl.
  unfold bind. rewrite removeAllActiveClasses_run. reflexivity.
Qed.

Lemma setActiveLink_missing (sid : string) (s : Selector) (w : World) :
  parseSelector (dataTargetSelector sid) = Parsed s ->
  head (selectAll s (document w)) = None ->
  setActiveLink sid w = Normal tt w.
Proof.
  intros Hp Hl. unfold setActiveLink, bind.
  now rewrite (querySelector_parsed _ _ _ Hp), Hl.
Qed.

Lemma setActiveLink_invalid (sid : string) (w : World) :
  parseSelector (dataTargetSelector sid) = Invalid ->
  setActiveLink sid w = Throw SyntaxError w.
Proof.
  intros Hp. unfold setActiveLink, bind.
  now rewrite (querySelector_invalid _ _ Hp).
Qed.

(** *** The world after marking one link *)

Lemma head_In {A : Type} (l : list A) (x : A) : head l = Some x -> In x l.
Proof. destruct l; [discriminate | intros [= ->]; now left]. Qed.

Lemma existsb_eqb_In (j : nat) (ls : list nat) :
  In j ls -> existsb (Nat.eqb j) ls = true.
Proof.
  intros Hin. apply existsb_exists. exists j. split; [exact Hin|].
  apply Nat.eqb_refl.
Qed.

Lemma marksOnly_refl (w : World) : marksOnly w w.
Proof.
  split; [apply Forall2_sameButActive_refl | now rewrite withDocument_same].
Qed.

Lemma marksOnly_trans (w1 w2 w3 : World) :
  marksOnly w1 w2 -> marksOnly w2 w3 -> marksOnly w1 w3.
Proof.
  intros [Hd12 H12] [Hd23 H23]. split.
  - eapply Forall2_sameButActive_trans; eauto.
  - rewrite H23 at 1. rewrite H12. reflexivity.
Qed.

Lemma marksOnly_navLinks (w w' : World) :
  marksOnly w w' -> navLinks w' = navLinks w.
Proof. intros [_ ->]. reflexivity. Qed.

Lemma marksOnly_installed (w w' : World) :
  marksOnly w w' -> installed w -> installed w'.
Proof.
  intros Hm Hi. unfold installed.
  rewrite (marksOnly_navLinks _ _ Hm), Hi.
  apply selectAll_sameButActive; [reflexivity | apply Hm].
Qed.

Lemma marked_marksOnly (l : nat) (w : World) : marksOnly w (marked l w).
Proof.
  split; [|reflexivity]. cbn [marked withDocument document].
  apply Forall2_sameButActive_alter; [apply sameButActive_addClass|].
  apply strip_sameButActive, Forall2_sameButActive_refl.
Qed.

Lemma marked_isActive (l j : nat) (w : World) :
  In l (navLinks w) -> installed w -> In j (navLinks w) ->
  isActive (marked l w) j = Nat.eqb j l.
Proof.
  intros Hl Hi Hj. unfold isActive, marked. cbn [withDocument document].
  destruct (Nat.eqb j l) eqn:Hjl.
  - apply Nat.eqb_eq in Hjl as ->.
    rewrite list_lookup_alter_eq, strip_lookup, (existsb_eqb_In _ _ Hl).
    rewrite Hi in Hl. apply selectAll_In in Hl as (e & He & _).
    rewrite He. cbn -[hasClass addClass removeClass].
    rewrite hasClass_addClass. reflexivity.
  - apply Nat.eqb_neq in Hjl.
    rewrite list_lookup_alter_ne by congruence.
    rewrite strip_lookup, (existsb_eqb_In _ _ Hj).
    destruct (document w !! j) as [e|];
      cbn -[hasClass addClass removeClass]; [|reflexivity].
    rewrite hasClass_removeClass. reflexivity.
Qed.

Lemma filter_eqb_absent (l : nat) (ls : list nat) :
  ~ In l ls -> List.filter (fun j => Nat.eqb j l) ls = [].
Proof.
  induction ls as [|x ls IH]; intros Hl; [reflexivity|].
  cbn [List.filter]. destruct (Nat.eqb x l) eqn:Hxl.
  - apply Nat.eqb_eq in Hxl as ->. exfalso. apply Hl. now left.
  - apply IH. intros Hin. apply Hl. now right.
Qed.

Lemma filter_eqb_only (l : nat) (ls : list nat) :
  List.NoDup ls -> In l ls -> List.filter (fun j => Nat.eqb j l) ls = [l].
Proof.
  induction 1 as [|x ls Hx Hnd IH]; intros Hin; [destruct Hin|].
  cbn [List.filter]. destruct (Nat.eqb x l) eqn:Hxl.
  - apply Nat.eqb_eq in Hxl as ->.
    now rewrite (filter_eqb_absent _ _ Hx).
  - destruct Hin as [->|Hin]; [now rewrite Nat.eqb_refl in Hxl | now apply IH].
Qed.

Lemma activeLinks_only (w : World) (l : nat) :
  List.NoDup (navLinks w) -> In l (navLinks w) ->
  (forall j, In j (navLinks w) -> isActive w j = Nat.eqb j l) ->
  activeLinks w = [l].
Proof.
  intros Hnd Hl Hact. unfold activeLinks.
  rewrite (List.filter_ext_in (isActive w) (fun j => Nat.eqb j l) _ Hact).
  now apply filter_eqb_only.
Qed.

Lemma installed_NoDup (w : World) : installed w -> List.NoDup (navLinks w).
Proof. intros ->. apply matchingFrom_NoDup. Qed.

Lemma marked_activeLinks (l : nat) (w : World) :
  In l (navLinks w) -> installed w -> activeLinks (marked l w) = [l].
Proof.
  intros Hl Hi. apply activeLinks_only.
  - exact (installed_NoDup w Hi).
  - exact Hl.
  - intros j Hj. now apply marked_isActive.
Qed.

Lemma marked_activeCount (l : nat) (w : World) :
  In l (navLinks w) -> installed w -> activeCount (marked l w) = 1.
Proof.
  intros Hl Hi. unfold activeCount. now rewrite marked_activeLinks.
Qed.

Lemma removeClass_removeClass (c : string) (e : Element) :
  removeClass c (removeClass c e) = removeClass c e.
Proof.
  unfold removeClass. cbn [localName attributes classList]. f_equal.
  induction (classList e) as [|t ts IH]; cbn [List.filter]; [reflexivity|].
  destruct (String.eqb c t) eqn:Hct; cbn [negb List.filter];
    [exact IH | rewrite Hct; cbn [negb]; now f_equal].
Qed.

Lemma addClass_addClass (c : string) (e : Element) :
  addClass c (addClass c e) = addClass c e.
Proof.
  unfold addClass at 1. rewrite hasClass_addClass, String.eqb_refl. reflexivity.
Qed.

Lemma removeClass_addClass (c : string) (e : Element) :
  removeClass c (addClass c e) = removeClass c e.
Proof.
  unfold addClass. destruct (hasClass c e); [reflexivity|].
  unfold removeClass. cbn [localName attributes classList]. f_equal.
  rewrite List.filter_app. cbn [List.filter].
  rewrite String.eqb_refl. cbn [negb]. apply app_nil_r.
Qed.

(** Marking the same link again changes nothing. *)
Lemma marked_again (l : nat) (w : World) : marked l (marked l w) = marked l w.
Proof.
  unfold marked. rewrite withDocument_twice. f_equal.
  change (navLinks (withDocument ?d w)) with (navLinks w).
  change (document (withDocument ?d w)) with d.
  apply list_eq. intros j.
  destruct (Nat.eq_dec j l) as [->|Hjl].
  - rewrite !list_lookup_alter_eq, !strip_lookup, list_lookup_alter_eq, strip_lookup.
    destruct (existsb (Nat.eqb l) (navLinks w));
      destruct (document w !! l) as [e|]; cbn -[addClass removeClass];
      try reflexivity.
    + now rewrite removeClass_addClass, removeClass_removeClass.
    + now rewrite addClass_addClass.
  - rewrite !list_lookup_alter_ne by congruence.
    rewrite !strip_lookup, list_lookup_alter_ne by congruence.
    rewrite strip_lookup.
    destruct (existsb (Nat.eqb j) (navLinks w)); [|reflexivity].
    destruct (document w !! j) as [e|]; cbn -[removeClass]; [|reflexivity].
    now rewrite removeClass_removeClass.
Qed.

(** *** The lookup of [setActiveLink] and the collection *)

Lemma head_matchingFrom_find (p q : Element -> bool) (suf : list Element) :
  forall pre,
    head (matchingFrom (fun e => p e && q e) (length pre) suf)
    = List.find (fun l => match (pre ++ suf)%list !! l with
                          | Some e => q e
                          | None => false
                          end)
                (matchingFrom p (length pre) suf).
Proof.
  induction suf as [|e r IH]; intros pre; cbn [matchingFrom]; [reflexivity|].
  specialize (IH (pre ++ [e])%list).
  rewrite <- app_assoc in IH. cbn [app] in IH.
  rewrite length_app in IH. cbn [length] in IH. rewrite Nat.add_1_r in IH.
  destruct (p e) eqn:Hp; cbn [andb].
  - cbn [List.find].
    rewrite (list_lookup_middle pre r e (length pre) eq_refl).
    destruct (q e); [reflexivity | exact IH].
  - exact IH.
Qed.

Lemma linkOf_head (w : World) (sid : string) :
  installed w ->
  head (selectAll (ClassAttrSel "nav-link" "data-target" sid) (document w))
  = linkOf w sid.
Proof.
  intros Hi. unfold linkOf. rewrite Hi. unfold selectAll.
  exact (head_matchingFrom_find (hasClass "nav-link")
           (attrIs "data-target" sid) (document w) []).
Qed.

Lemma linkOf_In (w : World) (sid : string) (l : nat) :
  linkOf w sid = Some l -> In l (navLinks w).
Proof. unfold linkOf. intros H. now apply find_some in H. Qed.

Lemma selected_link_In (w : World) (v : string) (l : nat) :
  installed w ->
  head (selectAll (ClassAttrSel "nav-link" "data-target" v) (document w)) = Some l ->
  In l (navLinks w).
Proof. intros Hi. rewrite (linkOf_head _ _ Hi). apply linkOf_In. Qed.

(** *** What a change of markers leaves alone *)

Lemma marksOnly_attr (w w' : World) (name : string) (i : nat) :
  marksOnly w w' ->
  match document w' !! i with Some e => attr name e | None => None end
  = match document w !! i with Some e => attr name e | None => None end.
Proof.
  intros [Hd _]. apply Forall2_lookup with (i := i) in Hd.
  destruct Hd as [e e' (_ & Ha & _)|]; [|reflexivity].
  unfold attr. now rewrite Ha.
Qed.

Lemma marksOnly_sectionIdOf (w w' : World) (entry : Entry) :
  marksOnly w w' -> sectionIdOf w' entry = sectionIdOf w entry.
Proof. intros Hm. apply (marksOnly_attr _ _ "id" _ Hm). Qed.

Lemma marksOnly_dataTargetIs (w w' : World) (sid : string) (l : nat) :
  marksOnly w w' -> dataTargetIs w' sid l = dataTargetIs w sid l.
Proof.
  intros Hm. unfold dataTargetIs, attrIs.
  pose proof (marksOnly_attr _ _ "data-target" l Hm) as H.
  destruct (document w' !! l), (document w !! l);
    try rewrite H; try reflexivity; now rewrite <- H.
Qed.

Lemma marksOnly_linkOf (w w' : World) (sid : string) :
  marksOnly w w' -> linkOf w' sid = linkOf w sid.
Proof.
  intros Hm. unfold linkOf. rewrite (marksOnly_navLinks _ _ Hm).
  induction (navLinks w) as [|l ls IH]; [reflexivity|].
  cbn [List.find]. now rewrite (marksOnly_dataTargetIs _ _ _ _ Hm), IH.
Qed.

Lemma marksOnly_enteringLink (w w' : World) (entry : Entry) :
  marksOnly w w' -> enteringLink w' entry = enteringLink w entry.
Proof.
  intros Hm. unfold enteringLink. rewrite (marksOnly_sectionIdOf _ _ _ Hm).
  destruct (isIntersecting entry); [|reflexivity].
  destruct (sectionIdOf w entry); [|reflexivity].
  apply (marksOnly_linkOf _ _ _ Hm).
Qed.

Lemma marksOnly_enteringLinks (w w' : World) (entries : list Entry) :
  marksOnly w w' -> enteringLinks w' entries = enteringLinks w entries.
Proof.
  intros Hm. unfold enteringLinks.
  induction entries as [|e r IH]; [reflexivity|].
  cbn [omap list_omap]. fold (omap (enteringLink w') r). fold (omap (enteringLink w) r).
  now rewrite IH, (marksOnly_enteringLink _ _ _ Hm).
Qed.

Lemma marksOnly_plainEntry (w w' : World) (entry : Entry) :
  marksOnly w w' -> plainEntry w' entry = plainEntry w entry.
Proof.
  intros Hm. unfold plainEntry.
  now rewrite (marksOnly_sectionIdOf _ _ _ Hm), (marksOnly_linkOf _ _ _ Hm).
Qed.

(** *** One entry, then a batch *)

Lemma getAttribute_id (w : World) (entry : Entry) :
  getAttribute "id" (target entry) w = Normal (sectionIdOf w entry) w.
Proof. reflexivity. Qed.

Lemma onEntry_outside (w : World) (entry : Entry) :
  isIntersecting entry = false -> onEntry entry w = Normal tt w.
Proof. intros H. unfold onEntry. now rewrite H. Qed.

Lemma onEntry_plain (w : World) (entry : Entry) :
  installed w -> plainEntry w entry = true ->
  onEntry entry w
  = Normal tt (match enteringLink w entry with
               | Some l => marked l w
               | None => w
               end).
Proof.
  intros Hi Hp. unfold onEntry, enteringLink, plainEntry in *.
  destruct (isIntersecting entry); cbn [negb orb] in Hp; [|reflexivity].
  unfold bind. rewrite getAttribute_id.
  destruct (sectionIdOf w entry) as [sid|]; cbn [toJSString].
  - pose proof (parse_dataTargetSelector sid Hp) as Hparse.
    destruct (linkOf w sid) as [l|] eqn:Hl.
    + apply (setActiveLink_found _ _ _ _ Hparse). now rewrite linkOf_head.
    + apply (setActiveLink_missing _ _ _ Hparse). now rewrite linkOf_head.
  - destruct (linkOf w "null") eqn:Hl; [discriminate|].
    apply (setActiveLink_missing _ _ _ (parse_dataTargetSelector "null" eq_refl)).
    now rewrite linkOf_head.
Qed.

Lemma enteringLink_In (w : World) (entry : Entry) (l : nat) :
  enteringLink w entry = Some l -> In l (navLinks w).
Proof.
  unfold enteringLink. destruct (isIntersecting entry); [|discriminate].
  destruct (sectionIdOf w entry); [|discriminate]. apply linkOf_In.
Qed.

Lemma onEntry_any (w w' : World) (entry : Entry) :
  installed w -> after (onEntry entry w) = Some w' ->
  w' = w \/ exists l, In l (navLinks w) /\ w' = marked l w.
Proof.
  intros Hi. unfold onEntry.
  destruct (isIntersecting entry); [|intros [= <-]; now left].
  unfold bind. rewrite getAttribute_id.
  set (sid := toJSString (sectionIdOf w entry)).
  destruct (parseSelector (dataTargetSelector sid)) as [s| |] eqn:Hparse.
  - destruct (parse_dataTargetSelector_shape _ _ Hparse) as [v ->].
    destruct (head (selectAll (ClassAttrSel "nav-link" "data-target" v)
                      (document w))) as [l|] eqn:Hl.
    + rewrite (setActiveLink_found _ _ _ _ Hparse Hl). intros [= <-].
      right. exists l. split; [|reflexivity].
      now apply (selected_link_In w v).
    + rewrite (setActiveLink_missing _ _ _ Hparse Hl). intros [= <-]. now left.
  - rewrite (setActiveLink_invalid _ _ Hparse). intros [= <-]. now left.
  - unfold setActiveLink, bind.
    rewrite (querySelector_unmodelled _ _ Hparse). discriminate.
Qed.

Lemma observerCallback_cons (entry : Entry) (r : list Entry) (w : World) :
  observerCallback (entry :: r) w
  = match onEntry entry w with
    | Normal _ w1 => observerCallback r w1
    | Throw x w1 => Throw x w1
    | Unknown => Unknown
    end.
Proof. reflexivity. Qed.

Lemma onEntry_step (w w' : World) (entry : Entry) :
  installed w -> after (onEntry entry w) = Some w' ->
  marksOnly w w' /\ installed w' /\ (w' = w \/ activeCount w' = 1).
Proof.
  intros Hi Ha. destruct (onEntry_any _ _ _ Hi Ha) as [-> | (l & Hl & ->)].
  - split; [apply marksOnly_refl|]. split; [exact Hi | now left].
  - split; [apply marked_marksOnly|]. split.
    + eapply marksOnly_installed; [apply marked_marksOnly | exact Hi].
    + right. now apply marked_activeCount.
Qed.

Lemma observerCallback_any (entries : list Entry) :
  forall w w',
    installed w -> after (observerCallback entries w) = Some w' ->
    marksOnly w w' /\ installed w' /\ (w' = w \/ activeCount w' = 1).
Proof.
  induction entries as [|e r IH]; intros w w' Hi.
  - intros [= <-]. split; [apply marksOnly_refl|]. split; [exact Hi | now left].
  - rewrite observerCallback_cons.
    destruct (onEntry e w) as [[] w1|x w1|] eqn:He; [| |discriminate].
    + assert (H1 : after (onEntry e w) = Some w1) by now rewrite He.
      destruct (onEntry_step _ _ _ Hi H1) as (Hm1 & Hi1 & Hc1).
      intros Hr. destruct (IH _ _ Hi1 Hr) as (Hm & Hi' & Hc).
      split; [eapply marksOnly_trans; eauto|]. split; [exact Hi'|].
      destruct Hc as [-> | Hc]; [|now right].
      destruct Hc1 as [-> | Hc1]; [now left | now right].
    + intros [= <-].
      assert (H1 : after (onEntry e w) = Some w1) by now rewrite He.
      apply (onEntry_step _ _ _ Hi H1).
Qed.

(** A batch of plain entries runs to its end; the link of the last entry
    that has one is then the only active NavLink. *)
Lemma observerCallback_plain (entries : list Entry) :
  forall w,
    installed w -> forallb (plainEntry w) entries = true ->
    exists w',
      observerCallback entries w = Normal tt w' /\
      marksOnly w w' /\
      match winner w entries with
      | Some l => In l (navLinks w) /\
                  forall j, In j (navLinks w) -> isActive w' j = Nat.eqb j l
      | None => w' = w
      end.
Proof.
  unfold winner, enteringLinks.
  induction entries as [|e r IH]; intros w Hi Hp.
  - exists w. split; [reflexivity|]. split; [apply marksOnly_refl | reflexivity].
  - cbn [forallb] in Hp. apply andb_true_iff in Hp as [He Hr].
    rewrite observerCallback_cons, (onEntry_plain _ _ Hi He).
    set (w1 := match enteringLink w e with Some l => marked l w | None => w end).
    assert (Hm1 : marksOnly w w1).
    { subst w1. destruct (enteringLink w e);
        [apply marked_marksOnly | apply marksOnly_refl]. }
    assert (Hi1 : installed w1) by (eapply marksOnly_installed; eauto).
    assert (Hr1 : forallb (plainEntry w1) r = true).
    { rewrite <- Hr. clear -Hm1. induction r as [|x r IHr]; [reflexivity|].
      cbn [forallb]. now rewrite IHr, (marksOnly_plainEntry _ _ _ Hm1). }
    destruct (IH w1 Hi1 Hr1) as (w' & Hrun & Hm & Hw).
    exists w'. split; [exact Hrun|]. split; [eapply marksOnly_trans; eauto|].
    change (omap (enteringLink w1) r) with (enteringLinks w1 r) in Hw.
    rewrite (marksOnly_enteringLinks _ _ _ Hm1) in Hw.
    rewrite (marksOnly_navLinks _ _ Hm1) in Hw.
    change (omap (enteringLink w) (e :: r))
      with (match enteringLink w e with
            | Some l => l :: enteringLinks w r
            | None => enteringLinks w r
            end).
    destruct (enteringLink w e) as [l|] eqn:Hl.
    + rewrite last_cons.
      destruct (last (enteringLinks w r)) as [l'|]; [exact Hw|].
      subst w'. subst w1. split; [now apply (enteringLink_In w e)|].
      intros j Hj. apply marked_isActive; auto.
      now apply (enteringLink_In w e).
    + subst w1. exact Hw.
Qed.

(** *** The top-level code *)

Lemma forEach_addEventListener (ls : list nat) :
  forall w,
    forEach (fun link => addEventListener link (NavClick link)) ls w
    = Normal tt (mkWorld (document w) (scrollY w) (sections w) (navLinks w)
                         (observer w) (observed w)
                         (listeners w ++ List.map (fun l => (l, NavClick l)) ls)%list
                         (effects w)).
Proof.
  induction ls as [|l ls IH]; intros w; cbn [forEach List.map].
  - unfold ret. rewrite app_nil_r. now destruct w.
  - unfold bind at 1. unfold addEventListener at 1. rewrite IH.
    cbn [document scrollY sections navLinks observer observed listeners effects].
    now rewrite <- app_assoc.
Qed.

Lemma forEach_observe (ss : list nat) :
  forall w,
    forEach observe ss w
    = Normal tt (mkWorld (document w) (scrollY w) (sections w) (navLinks w)
                         (observer w) (observed w ++ ss)%list
                         (listeners w) (effects w)).
Proof.
  induction ss as [|x ss IH]; intros w; cbn [forEach].
  - unfold ret. rewrite app_nil_r. now destruct w.
  - unfold bind at 1. unfold observe at 1. rewrite IH.
    cbn [document scrollY sections navLinks observer observed listeners effects].
    now rewrite <- app_assoc.
Qed.

Lemma script_run (doc : list Element) (y : Z) :
  script (page doc y)
  = match head (selectAll (ClassSel "logo") (seeded doc)) with
    | Some l => Normal tt (withListener l LogoClick (started doc y))
    | None => Throw TypeError (started doc y)
    end.
Proof.
  unfold script, page, started, seeded.
  unfold bind at 1. unfold querySelectorAll at 1. rewrite parse_section.
  unfold bind at 1. unfold querySelectorAll at 1. rewrite parse_nav_link.
  cbn [document].
  unfold bind at 1. unfold setCollections at 1.
  unfold bind at 1. rewrite forEach_addEventListener.
  unfold bind at 1. unfold newIntersectionObserver at 1.
  rewrite margin_of_options.
  unfold bind at 1. rewrite forEach_observe.
  cbn [document scrollY sections navLinks observer observed listeners effects app].
  destruct (selectAll (ClassSel "nav-link") doc) as [|first ls] eqn:Hls.
  - cbn [length Nat.ltb Nat.leb]. unfold bind, ret.
    rewrite (querySelector_parsed _ _ _ parse_logo). cbn [document].
    destruct (head (selectAll (ClassSel "logo") doc)); reflexivity.
  - cbn [length Nat.ltb Nat.leb lookup list_lookup]. unfold bind.
    unfold classList_add at 1.
    rewrite (querySelector_parsed _ _ _ parse_logo).
    cbn [withDocument document scrollY sections navLinks observer observed
         listeners effects].
    destruct (head (selectAll (ClassSel "logo") _)); reflexivity.
Qed.

Lemma started_marksOnly (doc : list Element) (y : Z) :
  Forall2 sameButActive doc (document (started doc y)).
Proof.
  cbn [started document]. unfold seeded.
  destruct (selectAll (ClassSel "nav-link") doc).
  - apply Forall2_sameButActive_refl.
  - apply Forall2_sameButActive_alter;
      [apply sameButActive_addClass | apply Forall2_sameButActive_refl].
Qed.

Lemma started_installed (doc : list Element) (y : Z) :
  installed (started doc y).
Proof.
  unfold installed. cbn [started navLinks].
  apply (selectAll_sameButActive (ClassSel "nav-link") doc
           (document (started doc y)) eq_refl).
  apply started_marksOnly.
Qed.

(** *** The click listeners *)

Lemma navLinkClick_run (link : nat) (w : World) :
  navLinkClick link w
  = match parseSelector (toJSString (hrefOf w link)) with
    | Parsed s =>
        match head (selectAll s (document w)) with
        | Some t =>
            Normal tt (addEffects [PreventDefault; ScrollIntoView t smoothToStart] w)
        | None => Normal tt (addEffects [PreventDefault] w)
        end
    | Invalid => Throw SyntaxError (addEffects [PreventDefault] w)
    | Unmodelled => Unknown
    end.
Proof.
  unfold navLinkClick, bind, preventDefault, emit, getAttribute, hrefOf.
  cbn [document].
  destruct (parseSelector _) as [s| |] eqn:Hp.
  - rewrite (querySelector_parsed _ _ _ Hp). cbn [document].
    destruct (head (selectAll s (document w))); [|reflexivity].
    unfold scrollIntoView, emit, addEffects.
    cbn [document scrollY sections navLinks observer observed listeners effects].
    now rewrite <- app_assoc.
  - now rewrite (querySelector_invalid _ _ Hp).
  - now rewrite (querySelector_unmodelled _ _ Hp).
Qed.

Lemma logoClick_run (w : World) :
  logoClick w
  = match head (selectAll (IdSel "home") (document w)) with
    | Some h =>
        Normal tt (addEffects [PreventDefault; ScrollIntoView h smoothToStart] w)
    | None => Throw TypeError (addEffects [PreventDefault] w)
    end.
Proof.
  unfold logoClick, bind, preventDefault, emit.
  rewrite (querySelector_parsed _ _ _ parse_home). cbn [document].
  destruct (head (selectAll (IdSel "home") (document w))); [|reflexivity].
  unfold scrollIntoView, emit, addEffects.
  cbn [document scrollY sections navLinks observer observed listeners effects].
  now rewrite <- app_assoc.
Qed.

Lemma runHandler_frame (h : Handler) (w w' : World) :
  after (runHandler h w) = Some w' ->
  document w' = document w /\ navLinks w' = navLinks w.
Proof.
  destruct h as [link|]; cbn [runHandler].
  - rewrite navLinkClick_run.
    destruct (parseSelector _); [|intros [= <-]; now split|discriminate].
    destruct (head _); intros [= <-]; now split.
  - rewrite logoClick_run. destruct (head _); intros [= <-]; now split.
Qed.

(** *** Worlds the page can be in *)

Lemma script_after (doc : list Element) (y : Z) (w : World) :
  after (script (page doc y)) = Some w ->
  document w = seeded doc /\
  navLinks w = selectAll (ClassSel "nav-link") doc /\
  observer w = observer (started doc y).
Proof.
  rewrite script_run. destruct (head _); intros [= <-]; now repeat split.
Qed.

Lemma reachable_shape (doc : list Element) (y : Z) (w : World) :
  reachable (page doc y) w ->
  Forall2 sameButActive doc (document w) /\
  navLinks w = selectAll (ClassSel "nav-link") doc.
Proof.
  induction 1 as [w Hs | w w' el h _ [IHd IHn] _ Hh | w el h es _ [IHd IHn] _ _
                  | w w' entries _ [IHd IHn] Ho].
  - apply script_after in Hs as (Hd & Hn & _). split; [|exact Hn].
    rewrite Hd. apply (started_marksOnly doc y).
  - apply runHandler_frame in Hh as [-> ->]. now split.
  - now split.
  - assert (Hi : installed w).
    { unfold installed. rewrite IHn.
      now apply selectAll_sameButActive. }
    destruct (observerCallback_any _ _ _ Hi Ho) as (Hm & _ & _). split.
    + eapply Forall2_sameButActive_trans; [exact IHd | apply Hm].
    + now rewrite (marksOnly_navLinks _ _ Hm).
Qed.

Lemma reachable_installed (doc : list Element) (y : Z) (w : World) :
  reachable (page doc y) w -> installed w.
Proof.
  intros Hr. destruct (reachable_shape _ _ _ Hr) as [Hd Hn].
  unfold installed. rewrite Hn. now apply selectAll_sameButActive.
Qed.

Lemma activeCount_le (w : World) : activeCount w <= length (navLinks w).
Proof. apply List.filter_length_le. Qed.

Lemma activeCount_frame (w w' : World) :
  document w' = document w -> navLinks w' = navLinks w ->
  activeCount w' = activeCount w.
Proof.
  intros Hd Hn. unfold activeCount, activeLinks. rewrite Hn.
  f_equal. apply List.filter_ext. intros j. unfold isActive. now rewrite Hd.
Qed.

Lemma seeded_activeCount (doc : list Element) (y : Z) :
  unmarkedTail doc = true ->
  activeCount (started doc y)
  = Nat.min 1 (length (selectAll (ClassSel "nav-link") doc)).
Proof.
  intros Hu. unfold activeCount, activeLinks, unmarkedTail in *.
  cbn [started navLinks]. unfold isActive. cbn [started document]. unfold seeded.
  pose proof (matchingFrom_NoDup (matches (ClassSel "nav-link")) doc 0) as Hnd.
  pose proof (selectAll_In (ClassSel "nav-link") doc) as Hin.
  unfold selectAll in *.
  destruct (matchingFrom _ 0 doc) as [|first ls]; [reflexivity|].
  cbn [tail] in Hu. cbn [List.filter length].
  rewrite list_lookup_alter_eq.
  destruct (proj1 (Hin first) (or_introl eq_refl)) as (e & He & _).
  rewrite He. cbn -[hasClass addClass]. rewrite hasClass_addClass.
  cbn [String.eqb Ascii.eqb Bool.eqb andb orb length].
  replace (List.filter _ ls) with (@nil nat); [reflexivity|].
  symmetry. inversion Hnd as [|? ? Hfirst Hnd']; subst.
  clear Hin He Hnd. induction ls as [|l ls IH]; [reflexivity|].
  cbn [forallb] in Hu. apply andb_true_iff in Hu as [Hl Hu].
  cbn [List.filter].
  rewrite list_lookup_alter_ne by (intros ->; apply Hfirst; now left).
  destruct (doc !! l) as [el|].
  - apply negb_true_iff in Hl. rewrite Hl. apply IH; [exact Hu| |].
    + intros Hx. apply Hfirst. now right.
    + now inversion Hnd'.
  - apply IH; [exact Hu| |].
    + intros Hx. apply Hfirst. now right.
    + now inversion Hnd'.
Qed.

Lemma reachable_activeCount (doc : list Element) (y : Z) (w : World) :
  unmarkedTail doc = true ->
  reachable (page doc y) w ->
  activeCount w = Nat.min 1 (length (navLinks w)).
Proof.
  intros Hu.
  induction 1 as [w Hs | w w' el h Hr IH _ Hh | w el h es Hr IH _ _
                  | w w' entries Hr IH Ho].
  - pose proof (seeded_activeCount doc y Hu) as Hc.
    rewrite script_run in Hs.
    destruct (head _); injection Hs as <-; exact Hc.
  - apply runHandler_frame in Hh as [Hd Hn].
    now rewrite (activeCount_frame _ _ Hd Hn), Hn.
  - exact IH.
  - destruct (observerCallback_any _ _ _ (reachable_installed _ _ _ Hr) Ho)
      as (Hm & _ & [-> | Hc]); [exact IH|].
    pose proof (activeCount_le w'). lia.
Qed.

(** *** The same notification twice *)

(** Whatever the first notification did (marked a link, found none, or
    threw at the lookup), the second one does the same and leaves the
    world where the first one left it. *)
Lemma onEntry_twice (w w1 : World) (entry : Entry) :
  installed w ->
  after (onEntry entry w) = Some w1 ->
  after (onEntry entry w1) = Some w1.
Proof.
  intros Hi. unfold onEntry.
  destruct (isIntersecting entry); [|intros [= <-]; reflexivity].
  unfold bind. rewrite !getAttribute_id.
  set (sid := toJSString (sectionIdOf w entry)).
  destruct (parseSelector (dataTargetSelector sid)) as [s| |] eqn:Hparse.
  - destruct (parse_dataTargetSelector_shape _ _ Hparse) as [v ->].
    destruct (head (selectAll (ClassAttrSel "nav-link" "data-target" v)
                      (document w))) as [l|] eqn:Hl.
    + rewrite (setActiveLink_found _ _ _ _ Hparse Hl). intros [= <-].
      pose proof (marked_marksOnly l w) as Hm.
      rewrite (marksOnly_sectionIdOf _ _ entry Hm). fold sid.
      rewrite (setActiveLink_found sid _ (marked l w) l Hparse).
      * now rewrite marked_again.
      * rewrite <- Hl. f_equal. symmetry.
        apply selectAll_sameButActive; [reflexivity | apply Hm].
    + rewrite (setActiveLink_missing _ _ _ Hparse Hl). intros [= <-].
      fold sid. now rewrite (setActiveLink_missing _ _ _ Hparse Hl).
  - rewrite (setActiveLink_invalid _ _ Hparse). intros [= <-].
    fold sid. now rewrite (setActiveLink_invalid _ _ Hparse).
  - unfold setActiveLink, bind.
    rewrite (querySelector_unmodelled _ _ Hparse). discriminate.
Qed.

Lemma observerCallback_twice (w w1 : World) (entry : Entry) :
  installed w ->
  after (observerCallback [entry] w) = Some w1 ->
  after (observerCallback [entry] w1) = Some w1.
Proof.
  intros Hi Hfirst.
  assert (H1 : after (onEntry entry w) = Some w1).
  { rewrite observerCallback_cons in Hfirst.
    destruct (onEntry entry w) as [[] w2|x w2|]; [exact Hfirst..|discriminate]. }
  pose proof (onEntry_twice _ _ _ Hi H1) as H2.
  rewrite observerCallback_cons.
  destruct (onEntry entry w1) as [[] w3|x w3|]; [exact H2..|discriminate].
Qed.

(** *** Lookups that cannot throw *)


Lemma readable_hash_ident (id : string) :
  isIdent id = true -> readable (String "#" id) = true.
Proof. intros Hid. unfold readable. now rewrite (parse_hash_ident _ Hid). Qed.

Lemma readable_null : readable (toJSString None) = true.
Proof. reflexivity. Qed.




(** *** Lookups that fail *)

Lemma script_without_logo (doc : list Element) (y : Z) :
  selectAll (ClassSel "logo") doc = [] ->
  script (page doc y) = Throw TypeError (started doc y).
Proof.
  intros Hnone. rewrite script_run.
  rewrite <- (selectAll_sameButActive (ClassSel "logo") doc (seeded doc) eq_refl
                (started_marksOnly doc y)).
  now rewrite Hnone.
Qed.

Lemma logoClick_without_home (w : World) :
  selectAll (IdSel "home") (document w) = [] ->
  logoClick w = Throw TypeError (addEffects [PreventDefault] w).
Proof. intros Hnone. rewrite logoClick_run. now rewrite Hnone. Qed.

Lemma navLinkClick_bare_hash (w : World) (link : nat) :
  hrefOf w link = Some "#" ->
  navLinkClick link w = Throw SyntaxError (addEffects [PreventDefault] w).
Proof. intros Hh. rewrite navLinkClick_run, Hh. reflexivity. Qed.

(** An absent href reads as the text null, a type selector. *)
Lemma navLinkClick_without_href (w : World) (link : nat) :
  hrefOf w link = None ->
  selectAll (TypeSel "null") (document w) = [] ->
  navLinkClick link w = Normal tt (addEffects [PreventDefault] w).
Proof.
  intros Hh Hnone. rewrite navLinkClick_run, Hh, parse_null. now rewrite Hnone.
Qed.

(** *** Lookups within the modelled texts *)

(** The selector of [setActiveLink] is read as a selector only when the
    identifier can stand between the quotes as it is. *)
Lemma scanString_bracket (sid : string) :
  forall v, scanString (sid ++ String dquote "]") = ScanClosed v "]" ->
            quotable sid = true.
Proof.
  induction sid as [|c r IH]; intros v; [reflexivity|].
  cbn [append scanString quotable].
  destruct (Chars.isQuote c) eqn:Hq.
  - intros [= _ Hrest]. destruct r as [|a [|b r]]; discriminate.
  - destruct (Chars.isNewline c) eqn:Hn; [discriminate|].
    destruct (Chars.isBackslash c || Chars.isNul c) eqn:Hb; [discriminate|].
    destruct (scanString (r ++ String dquote "]")) as [v' rest| |] eqn:Hs;
      try discriminate.
    intros [= _ ->]. cbn [orb] in *.
    apply orb_false_iff in Hb as [-> ->]. cbn [orb negb andb].
    now apply (IH v').
Qed.

Lemma parse_dataTargetSelector_quotable (sectionId : string) (s : Selector) :
  parseSelector (dataTargetSelector sectionId) = Parsed s ->
  quotable sectionId = true.
Proof.
  unfold dataTargetSelector. cbn [append]. lazy -[scanString append quotable].
  destruct (scanString _) as [v rest| |] eqn:Hs; try discriminate.
  destruct rest as [|b rest]; try discriminate.
  destruct rest as [|b' rest].
  - destruct b as [[] [] [] [] [] [] [] []]; try discriminate.
    intros _. now apply (scanString_bracket _ v).
  - destruct b as [[] [] [] [] [] [] [] []]; discriminate.
Qed.

Lemma marksOnly_withinFragment (w w' : World) (entry : Entry) :
  marksOnly w w' -> withinFragment w' entry = withinFragment w entry.
Proof.
  intros Hm. unfold withinFragment.
  now rewrite (marksOnly_sectionIdOf _ _ _ Hm).
Qed.

Lemma marksOnly_foundLink (w w' : World) (entry : Entry) :
  marksOnly w w' -> foundLink w' entry = foundLink w entry.
Proof.
  intros Hm. unfold foundLink.
  now rewrite (marksOnly_sectionIdOf _ _ _ Hm), (marksOnly_linkOf _ _ _ Hm).
Qed.

Lemma forallb_withinFragment (w w' : World) (entries : list Entry) :
  marksOnly w w' ->
  forallb (withinFragment w') entries = forallb (withinFragment w) entries.
Proof.
  intros Hm. induction entries as [|e r IH]; [reflexivity|].
  cbn [forallb]. now rewrite IH, (marksOnly_withinFragment _ _ _ Hm).
Qed.

Lemma foundLink_In (w : World) (entry : Entry) (l : nat) :
  foundLink w entry = Some l -> In l (navLinks w).
Proof.
  unfold foundLink. destruct (quotable _); [apply linkOf_In | discriminate].
Qed.

(** An entry within the modelled texts that reports its section inside:
    the lookup throws, or marks the NavLink found, or finds none. *)
Lemma onEntry_within (w : World) (entry : Entry) :
  installed w ->
  isIntersecting entry = true ->
  withinFragment w entry = true ->
  onEntry entry w
  = if quotable (toJSString (sectionIdOf w entry))
    then Normal tt (match foundLink w entry with
                    | Some l => marked l w
                    | None => w
                    end)
    else Throw SyntaxError w.
Proof.
  intros Hi Hin Hf. unfold onEntry, withinFragment, foundLink in *.
  rewrite Hin in *. cbn [negb orb] in Hf.
  unfold bind. rewrite getAttribute_id.
  set (sid := toJSString (sectionIdOf w entry)) in *.
  destruct (quotable sid) eqn:Hq.
  - pose proof (parse_dataTargetSelector sid Hq) as Hparse.
    destruct (linkOf w sid) as [l|] eqn:Hl.
    + apply (setActiveLink_found _ _ _ _ Hparse). now rewrite linkOf_head.
    + apply (setActiveLink_missing _ _ _ Hparse). now rewrite linkOf_head.
  - destruct (parseSelector (dataTargetSelector sid)) as [s| |] eqn:Hparse.
    + rewrite (parse_dataTargetSelector_quotable _ _ Hparse) in Hq.
      discriminate.
    + now apply setActiveLink_invalid.
    + discriminate.
Qed.

(** Within the modelled texts every entry completes. *)
Lemma onEntry_within_completes (w : World) (entry : Entry) :
  withinFragment w entry = true -> onEntry entry w <> Unknown.
Proof.
  unfold withinFragment, onEntry.
  destruct (isIntersecting entry); cbn [negb orb]; [|discriminate].
  unfold bind. rewrite getAttribute_id.
  set (sid := toJSString (sectionIdOf w entry)).
  destruct (parseSelector (dataTargetSelector sid)) as [s| |] eqn:Hparse;
    [| |discriminate]; intros _.
  - destruct (head (selectAll s (document w))) as [l|] eqn:Hl.
    + now rewrite (setActiveLink_found _ _ _ _ Hparse Hl).
    + now rewrite (setActiveLink_missing _ _ _ Hparse Hl).
  - now rewrite (setActiveLink_invalid _ _ Hparse).
Qed.

(** ** The claims *)

(** C1 fails on the code.  The observer the script creates watches the
    viewport ([root] is null) with the margins [-70% 0px -70% 0px] and
    the threshold 0.  The comment at the option speaks of a zone in the
    middle of the screen, but the two margins take 140 per cent of the
    height between them, so no band of any height is left: for a
    viewport of any height the band starts at 70 per cent of the height
    and is empty, a line.  In a viewport 1000 pixels high the band is the
    line at 700 pixels; a section from 400 to 600 pixels, well inside
    the central 40 per cent, does not meet it; a section from 650 to 750
    pixels does. *)
Theorem C1_band_is_a_line (doc : list Element) (y : Z) :
  exists w o,
    after (script (page doc y)) = Some w /\
    observer w = Some o /\
    observerRoot o = None /\
    observerThreshold o = 0%Q /\
    parseRootMargin (rootMargin observerOptions) = Some (observerMargin o) /\
    observerMargin o
    = mkRootMargin (Percent (-70)) (Px 0) (Percent (-70)) (Px 0) /\
    (forall height : Z,
        bandTop (observerMargin o) height = (70 * height)%Z /\
        bandHeight (observerMargin o) height = Z.max 0 (- (40 * height)) /\
        forall top bottom : Z,
          meetsBand (observerMargin o) height top bottom
          = ((top <=? 70 * height + Z.max 0 (- (40 * height)))
             && (70 * height <=? bottom))%Z) /\
    bandTop (observerMargin o) 1000 = 70000%Z /\
    bandBottom (observerMargin o) 1000 = 70000%Z /\
    meetsBand (observerMargin o) 1000 40000 60000 = false /\
    meetsBand (observerMargin o) 1000 65000 75000 = true.
Proof.
  destruct (after (script (page doc y))) as [w|] eqn:Hw.
  - destruct (script_after _ _ _ Hw) as (_ & _ & Ho).
    exists w. eexists. split; [reflexivity|]. split; [exact Ho|].
    cbn [observerRoot observerMargin observerThreshold observerOptions
         root threshold].
    do 4 (split; [reflexivity|]). split; [|repeat split; reflexivity].
    intros height.
    assert (Htop : bandTop (mkRootMargin (Percent (-70)) (Px 0)
                              (Percent (-70)) (Px 0)) height
                   = (70 * height)%Z).
    { unfold bandTop, resolve. cbn [marginTop]. lia. }
    assert (Hheight : bandHeight (mkRootMargin (Percent (-70)) (Px 0)
                                    (Percent (-70)) (Px 0)) height
                      = Z.max 0 (- (40 * height))).
    { unfold bandHeight, resolve. cbn [marginTop marginBottom]. f_equal. lia. }
    split; [exact Htop|]. split; [exact Hheight|].
    intros top bottom. unfold meetsBand, bandBottom. now rewrite Htop, Hheight.
  - rewrite script_run in Hw. destruct (head _); discriminate.
Qed.




(** C3, as the source has it.  On a page whose markup marks no NavLink
    but possibly the first: in every world the page can be in once the
    top-level code has run (whether it ran to its end or not), after any
    clicks and any batches of the observer whose lookups are within the
    modelled selector texts, the number of NavLinks marked active is 1 if
    there is a NavLink at all and 0 if there is none.  So it is at most
    one throughout, and it is already 1 before the first observation. *)
Theorem C3_marker_count (doc : list Element) (y : Z) (w : World) :
  unmarkedTail doc = true ->
  reachable (page doc y) w ->
  activeCount w = Nat.min 1 (length (navLinks w)) /\ activeCount w <= 1.
Proof.
  intros Hu Hr. pose proof (reachable_activeCount _ _ _ Hu Hr) as Hc.
  split; [exact Hc | lia].
Qed.

(** The sample page after the script and one batch that reports the
    projects section inside the band. *)
Lemma C3_witness :
  unmarkedTail samplePage = true /\
  (activeCount (marked 3 sampleStarted)
   = Nat.min 1 (length (navLinks (marked 3 sampleStarted))) /\
   activeCount (marked 3 sampleStarted) <= 1).
Proof.
  split; [reflexivity|].
  apply (C3_marker_count samplePage 0 (marked 3 sampleStarted)); [reflexivity|].
  apply (reach_observe _ sampleStarted _ [mkEntry true 6]).
  - apply reach_script. vm_compute. reflexivity.
  - vm_compute. reflexivity.
Defined.

(** C3 as stated fails: when the top-level code has run on the sample
    page, no observation has been delivered yet and one NavLink is marked
    active, not none.  And on the page whose markup marks two NavLinks by
    itself, two are marked when the top-level code has run. *)
Lemma C3_counterexample :
  (exists w,
      script (page samplePage 0) = Normal tt w /\
      activeLinks w = [1] /\
      activeCount w <> 0) /\
  (exists w,
      script (page crowdedPage 0) = Normal tt w /\
      activeLinks w = [1; 2] /\
      ~ activeCount w <= 1).
Proof.
  split.
  - eexists. split; [vm_compute; reflexivity|].
    split; [reflexivity | discriminate].
  - eexists. split; [vm_compute; reflexivity|].
    split; [reflexivity | cbn; lia].
Qed.

(** C4, as the source has it.  Whatever NavLinks are marked before, a
    batch in which every section reported inside the band has an
    identifier free of double quotes, backslashes, line breaks and NUL
    (or has none, on a page where no NavLink has the [data-target] null)
    runs to its end, and afterwards the NavLinks marked active are
    exactly one: the first NavLink of the collection whose [data-target]
    is the identifier of the last entry of the batch that reports its
    section inside and has such a NavLink.  Nothing but markers has
    changed. *)
Theorem C4_last_entering_wins (w : World) (entries : list Entry) (l : nat) :
  installed w ->
  forallb (plainEntry w) entries = true ->
  winner w entries = Some l ->
  exists w',
    observerCallback entries w = Normal tt w' /\
    marksOnly w w' /\
    activeLinks w' = [l].
Proof.
  intros Hi Hp Hw.
  destruct (observerCallback_plain entries w Hi Hp) as (w' & Hrun & Hm & Hl).
  rewrite Hw in Hl. destruct Hl as [Hin Hact].
  exists w'. split; [exact Hrun|]. split; [exact Hm|].
  apply activeLinks_only; rewrite (marksOnly_navLinks _ _ Hm).
  - now apply installed_NoDup.
  - exact Hin.
  - exact Hact.
Qed.

(** A page whose markup marks two NavLinks; the batch reports projects,
    then home leaving, then about. *)
Lemma C4_witness :
  installed (started crowdedPage 0) /\
  activeLinks (started crowdedPage 0) = [1; 2] /\
  exists w',
    observerCallback [mkEntry true 6; mkEntry false 4; mkEntry true 5]
                     (started crowdedPage 0) = Normal tt w' /\
    marksOnly (started crowdedPage 0) w' /\
    activeLinks w' = [2].
Proof.
  split; [apply started_installed|]. split; [reflexivity|].
  apply (C4_last_entering_wins (started crowdedPage 0)
           [mkEntry true 6; mkEntry false 4; mkEntry true 5] 2).
  - apply started_installed.
  - reflexivity.
  - reflexivity.
Defined.

(** C4 as stated fails.  When the first entry of a batch reports the
    section whose identifier is a double quote, the lookup for it throws
    a SyntaxError and the entry for home is never looked at: the NavLink
    of home, which the claim makes the active one, stays unmarked.  And
    when a section without identifier enters after home, it is looked up
    as the text null and the marker goes to the NavLink whose
    [data-target] is null. *)
Lemma C4_counterexample :
  (exists w,
      script (page pageQuoteId 0) = Normal tt w /\
      winner w [mkEntry true 3; mkEntry true 4] = Some 2 /\
      observerCallback [mkEntry true 3; mkEntry true 4] w = Throw SyntaxError w /\
      activeLinks w = [1]) /\
  (exists w w',
      script (page pageNullTarget 0) = Normal tt w /\
      winner w [mkEntry true 4; mkEntry true 3] = Some 1 /\
      observerCallback [mkEntry true 4; mkEntry true 3] w = Normal tt w' /\
      activeLinks w' = [2]).
Proof.
  split.
  - eexists. split; [vm_compute; reflexivity|].
    split; [reflexivity|]. split; reflexivity.
  - eexists. eexists. split; [vm_compute; reflexivity|].
    split; [reflexivity|]. split; [vm_compute; reflexivity | reflexivity].
Qed.

(** C5, as the source has it.  A click on a NavLink whose href reads as
    a selector (a hash followed by an identifier of letters, digits,
    hyphens and underscores that starts with a letter or an underscore; a
    class or a type; or no href at all, which is looked up as the type
    null) that no element of the document matches suppresses the default
    jump and does nothing else: no scroll, no exception. *)
Theorem C5_unmatched_target_is_noop (w : World) (link : nat) (s : Selector) :
  parseSelector (toJSString (hrefOf w link)) = Parsed s ->
  selectAll s (document w) = [] ->
  navLinkClick link w = Normal tt (addEffects [PreventDefault] w).
Proof.
  intros Hp Hnone. now rewrite navLinkClick_run, Hp, Hnone.
Qed.

(** A link to a contact section the page does not have, and a link
    without href. *)
Lemma C5_witness :
  navLinkClick 0
    (started [navLink "#contact" "contact";
              mkElement "a" [("data-target", "home")] ["nav-link"];
              section "home"] 0)
  = Normal tt
      (addEffects [PreventDefault]
         (started [navLink "#contact" "contact";
                   mkElement "a" [("data-target", "home")] ["nav-link"];
                   section "home"] 0))
  /\
  navLinkClick 1
    (started [navLink "#contact" "contact";
              mkElement "a" [("data-target", "home")] ["nav-link"];
              section "home"] 0)
  = Normal tt
      (addEffects [PreventDefault]
         (started [navLink "#contact" "contact";
                   mkElement "a" [("data-target", "home")] ["nav-link"];
                   section "home"] 0)).
Proof.
  split.
  - apply (C5_unmatched_target_is_noop _ 0 (IdSel "contact")); reflexivity.
  - apply (C5_unmatched_target_is_noop _ 1 (TypeSel "null")); reflexivity.
Defined.

(** C5 as stated fails: on a page with no section whose id is empty or
    2024, a click on the NavLink whose href is a bare hash, and a click
    on the one whose href is a hash followed by 2024, suppress the
    default jump and then throw a SyntaxError. *)
Lemma C5_counterexample :
  exists w,
    script (page pageHashLink 0) = Normal tt w /\
    hrefOf w 1 = Some "#" /\
    hrefOf w 2 = Some "#2024" /\
    List.filter (fun e => attrIs "id" EmptyString e || attrIs "id" "2024" e)
                (document w) = [] /\
    navLinkClick 1 w = Throw SyntaxError (addEffects [PreventDefault] w) /\
    navLinkClick 2 w = Throw SyntaxError (addEffects [PreventDefault] w).
Proof.
  eexists. split; [vm_compute; reflexivity|].
  repeat split; reflexivity.
Qed.

(** C6, as the source has it.  A notification that reports inside the
    band a section that has no NavLink leaves the whole world as it was,
    markers included, and throws nothing, when the identifier of the
    section is free of double quotes, backslashes, line breaks and NUL,
    or when the section has no identifier at all and no NavLink has the
    [data-target] null. *)
Theorem C6_unmatched_section_changes_nothing (w : World) (entry : Entry) :
  installed w ->
  isIntersecting entry = true ->
  plainEntry w entry = true ->
  enteringLink w entry = None ->
  observerCallback [entry] w = Normal tt w.
Proof.
  intros Hi Hin Hp Hnone.
  now rewrite observerCallback_cons, (onEntry_plain _ _ Hi Hp), Hnone.
Qed.

(** An imprint section without NavLink enters the band, then a section
    without id. *)
Lemma C6_witness :
  observerCallback [mkEntry true 2]
    (started [navLink "#home" "home"; section "home"; section "imprint";
              mkElement "section" [] []] 0)
  = Normal tt
      (started [navLink "#home" "home"; section "home"; section "imprint";
                mkElement "section" [] []] 0)
  /\
  observerCallback [mkEntry true 3]
    (started [navLink "#home" "home"; section "home"; section "imprint";
              mkElement "section" [] []] 0)
  = Normal tt
      (started [navLink "#home" "home"; section "home"; section "imprint";
                mkElement "section" [] []] 0).
Proof.
  split.
  - apply (C6_unmatched_section_changes_nothing
             (started [navLink "#home" "home"; section "home"; section "imprint";
                       mkElement "section" [] []] 0)
             (mkEntry true 2)); [apply started_installed | reflexivity..].
  - apply (C6_unmatched_section_changes_nothing
             (started [navLink "#home" "home"; section "home"; section "imprint";
                       mkElement "section" [] []] 0)
             (mkEntry true 3)); [apply started_installed | reflexivity..].
Defined.

(** C6 as stated fails: the section whose identifier is a double quote
    is the [data-target] of no NavLink, and the notification that reports
    it inside the band throws a SyntaxError; and a section without
    identifier is looked up as the text null, so that the notification
    for it moves the marker to the NavLink whose [data-target] is
    null. *)
Lemma C6_counterexample :
  (exists w,
      script (page pageQuoteId 0) = Normal tt w /\
      sectionIdOf w (mkEntry true 3) = Some (String dquote EmptyString) /\
      linkOf w (String dquote EmptyString) = None /\
      observerCallback [mkEntry true 3] w = Throw SyntaxError w) /\
  (exists w w',
      script (page pageNullTarget 0) = Normal tt w /\
      sectionIdOf w (mkEntry true 3) = None /\
      activeLinks w = [1] /\
      observerCallback [mkEntry true 3] w = Normal tt w' /\
      activeLinks w' = [2]).
Proof.
  split.
  - eexists. split; [vm_compute; reflexivity|].
    repeat split; reflexivity.
  - eexists. eexists. split; [vm_compute; reflexivity|].
    split; [reflexivity|]. split; [reflexivity|].
    split; [vm_compute; reflexivity | reflexivity].
Qed.

(** C7.  On a page with a logo and an element called home the script
    registers the logo listener on the logo, and in every world the page
    can be in afterwards that listener suppresses the default action and
    asks for one smooth scroll that puts the start of the home element at
    the top of the viewport, whatever href the logo has: the listener
    reads nothing from the logo. *)
Theorem C7_logo_scrolls_home (doc : list Element) (y : Z) (logo home : nat) :
  head (selectAll (ClassSel "logo") doc) = Some logo ->
  head (selectAll (IdSel "home") doc) = Some home ->
  exists w,
    script (page doc y) = Normal tt w /\
    In (logo, LogoClick) (listeners w) /\
    forall w',
      reachable (page doc y) w' ->
      runHandler LogoClick w'
      = Normal tt
          (addEffects
             [PreventDefault;
              ScrollIntoView home {| behavior := "smooth"; block := "start" |}]
             w').
Proof.
  intros Hlogo Hhome.
  exists (withListener logo LogoClick (started doc y)). split; [|split].
  - rewrite script_run.
    rewrite <- (selectAll_sameButActive (ClassSel "logo") doc (seeded doc) eq_refl
                  (started_marksOnly doc y)).
    now rewrite Hlogo.
  - cbn [withListener listeners]. apply in_or_app. right. now left.
  - intros w' Hr. cbn [runHandler]. rewrite logoClick_run.
    destruct (reachable_shape _ _ _ Hr) as [Hd _].
    rewrite <- (selectAll_sameButActive (IdSel "home") doc (document w') eq_refl Hd).
    now rewrite Hhome.
Qed.

(** The logo of the sample page points to about; its listener scrolls to
    home, the element at position 4. *)
Lemma C7_witness :
  exists w,
    script (page samplePage 0) = Normal tt w /\
    In (0, LogoClick) (listeners w) /\
    forall w',
      reachable (page samplePage 0) w' ->
      runHandler LogoClick w'
      = Normal tt
          (addEffects
             [PreventDefault;
              ScrollIntoView 4 {| behavior := "smooth"; block := "start" |}]
             w').
Proof.
  apply (C7_logo_scrolls_home samplePage 0 0 4); reflexivity.
Defined.

(** C8.  When the collection of NavLinks is not empty, the top-level
    code marks its first member active, wherever the page is scrolled to
    and whether or not the code runs to its end; the marker is there when
    the code stops, before any observation is delivered. *)
Theorem C8_first_link_seeded (doc : list Element) (y : Z) (first : nat) :
  head (selectAll (ClassSel "nav-link") doc) = Some first ->
  exists w,
    after (script (page doc y)) = Some w /\
    head (navLinks w) = Some first /\
    isActive w first = true /\
    scrollY w = y.
Proof.
  intros Hfirst.
  assert (Hact : isActive (started doc y) first = true).
  { unfold isActive. cbn [started document]. unfold seeded.
    pose proof (selectAll_In (ClassSel "nav-link") doc first) as Hin.
    destruct (selectAll (ClassSel "nav-link") doc) as [|f ls]; [discriminate|].
    injection Hfirst as ->.
    destruct (proj1 Hin (or_introl eq_refl)) as (e & He & _).
    rewrite list_lookup_alter_eq, He. cbn -[hasClass addClass].
    now rewrite hasClass_addClass. }
  rewrite script_run.
  destruct (head (selectAll (ClassSel "logo") (seeded doc))).
  - eexists. split; [reflexivity|]. now repeat split.
  - eexists. split; [reflexivity|]. now repeat split.
Qed.

(** The sample page, loaded while scrolled 1200 pixels down. *)
Lemma C8_witness :
  exists w,
    after (script (page samplePage 1200)) = Some w /\
    head (navLinks w) = Some 1 /\
    isActive w 1 = true /\
    scrollY w = 1200%Z.
Proof.
  apply (C8_first_link_seeded samplePage 1200 1). reflexivity.
Defined.

(** C9.  A batch in which no entry reports its section inside the band
    returns and leaves the whole world, and so every marker, as it
    was. *)
Theorem C9_leaving_is_ignored (w : World) (entries : list Entry) :
  forallb (fun entry => negb (isIntersecting entry)) entries = true ->
  observerCallback entries w = Normal tt w.
Proof.
  induction entries as [|e r IH]; intros Hout; [reflexivity|].
  cbn [forallb] in Hout. apply andb_true_iff in Hout as [He Hr].
  apply negb_true_iff in He.
  rewrite observerCallback_cons, (onEntry_outside _ _ He). now apply IH.
Qed.

(** Projects and home leave the band while projects is the active link. *)
Lemma C9_witness :
  observerCallback [mkEntry false 6; mkEntry false 4] (marked 3 sampleStarted)
  = Normal tt (marked 3 sampleStarted).
Proof.
  apply (C9_leaving_is_ignored (marked 3 sampleStarted)
           [mkEntry false 6; mkEntry false 4]).
  reflexivity.
Defined.

(** C10, as the source has it.  Take an entry that reports its section
    inside the band, the id of the section a text the selector reader
    models.  Processed twice in a row, the second notification completes
    as the first did in the world the first left (it returns, or throws
    the same syntax error), and leaves that world as it is: every marker
    and everything else.  When the lookup finds a NavLink for the
    section, this NavLink is the only active one afterwards, whatever was
    marked before.  When it finds none or throws, the world is the one
    before the first notification: as many NavLinks are active as were
    before, one only if one was. *)
Theorem C10_entering_twice (w : World) (entry : Entry) :
  installed w ->
  isIntersecting entry = true ->
  withinFragment w entry = true ->
  exists w1,
    after (observerCallback [entry] w) = Some w1 /\
    observerCallback [entry] w1 = observerCallback [entry] w /\
    match foundLink w entry with
    | Some l =>
        observerCallback [entry] w = Normal tt w1 /\
        w1 = marked l w /\ activeLinks w1 = [l] /\ activeCount w1 = 1
    | None => w1 = w
    end.
Proof.
  intros Hi Hin Hf.
  rewrite observerCallback_cons, (onEntry_within _ _ Hi Hin Hf).
  unfold foundLink.
  destruct (quotable (toJSString (sectionIdOf w entry))) eqn:Hq.
  - destruct (linkOf w (toJSString (sectionIdOf w entry))) as [l|] eqn:Hl.
    + pose proof (marked_marksOnly l w) as Hm.
      assert (Hl' : foundLink w entry = Some l)
        by (unfold foundLink; now rewrite Hq).
      pose proof (foundLink_In _ _ _ Hl') as Hnav.
      exists (marked l w). split; [reflexivity|]. split.
      * rewrite observerCallback_cons, onEntry_within.
        -- rewrite (marksOnly_sectionIdOf _ _ _ Hm), Hq.
           rewrite (marksOnly_foundLink _ _ _ Hm), Hl', marked_again.
           reflexivity.
        -- now apply (marksOnly_installed w).
        -- exact Hin.
        -- now rewrite (marksOnly_withinFragment _ _ _ Hm).
      * split; [reflexivity|]. split; [reflexivity|].
        split; [now apply marked_activeLinks | now apply marked_activeCount].
    + exists w. split; [reflexivity|]. split; [|reflexivity].
      rewrite observerCallback_cons, (onEntry_within _ _ Hi Hin Hf).
      unfold foundLink. now rewrite Hq, Hl.
  - exists w. split; [reflexivity|]. split; [|reflexivity].
    rewrite observerCallback_cons, (onEntry_within _ _ Hi Hin Hf).
    now rewrite Hq.
Qed.

(** Projects enters twice on the page with two NavLinks marked at first:
    the link to projects is the only one marked, both times. *)
Lemma C10_witness :
  exists w1,
    after (observerCallback [mkEntry true 6] (started crowdedPage 0)) = Some w1 /\
    observerCallback [mkEntry true 6] w1
    = observerCallback [mkEntry true 6] (started crowdedPage 0) /\
    observerCallback [mkEntry true 6] (started crowdedPage 0) = Normal tt w1 /\
    w1 = marked 3 (started crowdedPage 0) /\
    activeLinks w1 = [3] /\
    activeCount w1 = 1.
Proof.
  apply (C10_entering_twice (started crowdedPage 0) (mkEntry true 6)).
  - apply started_installed.
  - reflexivity.
  - reflexivity.
Defined.

(** C10 as claimed fails where the section has no NavLink.  On the page
    whose markup marks two NavLinks, the section imprint enters twice and
    two NavLinks are active after the second notification; on the page
    without NavLinks none is. *)
Lemma C10_counterexample :
  (exists w w1,
      script (page crowdedImprintPage 0) = Normal tt w /\
      observerCallback [mkEntry true 7] w = Normal tt w1 /\
      observerCallback [mkEntry true 7] w1 = Normal tt w1 /\
      activeLinks w1 = [1; 2] /\
      activeCount w1 <> 1) /\
  (exists w w1,
      script (page noLinksPage 0) = Normal tt w /\
      observerCallback [mkEntry true 1] w = Normal tt w1 /\
      observerCallback [mkEntry true 1] w1 = Normal tt w1 /\
      activeLinks w1 = [] /\
      activeCount w1 <> 1).
Proof.
  split.
  - do 2 eexists. split; [vm_compute; reflexivity|].
    split; [vm_compute; reflexivity|].
    split; [vm_compute; reflexivity|].
    split; [reflexivity | discriminate].
  - do 2 eexists. split; [vm_compute; reflexivity|].
    split; [vm_compute; reflexivity|].
    split; [vm_compute; reflexivity|].
    split; [reflexivity | discriminate].
Qed.

(** ** Further properties of the script *)

(** *** Helpers *)

Lemma head_matchingFrom_first (p : Element -> bool) (doc : list Element) :
  forall i t e,
    doc !! t = Some e -> p e = true ->
    (forall j e', j < t -> doc !! j = Some e' -> p e' = false) ->
    head (matchingFrom p i doc) = Some (i + t).
Proof.
  induction doc as [|d r IH]; intros i t e He Hp Hbefore; [discriminate|].
  cbn [matchingFrom]. destruct t as [|t].
  - injection He as ->. rewrite Hp. cbn [head]. f_equal. lia.
  - rewrite (Hbefore 0 d) by (lia || reflexivity).
    rewrite (IH (S i) t e He Hp).
    + f_equal. lia.
    + intros j e' Hj He'. apply (Hbefore (S j) e'); [lia | exact He'].
Qed.

Lemma forEach_app {A : Type} (f : A -> M unit) (a b : list A) :
  forall w,
    forEach f (a ++ b)%list w
    = match forEach f a w with
      | Normal _ w1 => forEach f b w1
      | Throw x w1 => Throw x w1
      | Unknown => Unknown
      end.
Proof.
  induction a as [|x a IH]; intros w; [reflexivity|].
  cbn [app forEach]. unfold bind.
  destruct (f x w) as [[] w1|e w1|]; [apply IH | reflexivity..].
Qed.

Lemma isActive_strip (w : World) (j : nat) :
  In j (navLinks w) ->
  isActive (withDocument (strip "active" (navLinks w) (document w)) w) j = false.
Proof.
  intros Hj. unfold isActive. cbn [withDocument document].
  rewrite strip_lookup, (existsb_eqb_In _ _ Hj).
  destruct (document w !! j) as [e|]; cbn -[hasClass removeClass]; [|reflexivity].
  now rewrite hasClass_removeClass.
Qed.

Lemma strip_outside (c : string) (ls : list nat) (d : list Element) (j : nat) :
  ~ In j ls -> strip c ls d !! j = d !! j.
Proof.
  intros Hj. rewrite strip_lookup.
  destruct (existsb (Nat.eqb j) ls) eqn:Hex; [|reflexivity].
  apply existsb_exists in Hex as (x & Hx & Hjx).
  apply Nat.eqb_eq in Hjx as ->. contradiction.
Qed.

Lemma marked_outside (l j : nat) (w : World) :
  ~ In j (navLinks w) -> j <> l ->
  document (marked l w) !! j = document w !! j.
Proof.
  intros Hj Hjl. unfold marked. cbn [withDocument document].
  rewrite list_lookup_alter_ne by congruence. now apply strip_outside.
Qed.

(** Marking a second link forgets which link was marked first. *)
Lemma marked_marked (l1 l2 : nat) (w : World) :
  In l1 (navLinks w) -> marked l2 (marked l1 w) = marked l2 w.
Proof.
  intros Hl1. unfold marked. rewrite withDocument_twice. f_equal.
  change (navLinks (withDocument ?d w)) with (navLinks w).
  change (document (withDocument ?d w)) with d.
  apply list_eq. intros j.
  destruct (Nat.eq_dec j l2) as [->|Hj2].
  - rewrite !list_lookup_alter_eq, !strip_lookup.
    destruct (Nat.eq_dec l2 l1) as [->|H21].
    + rewrite list_lookup_alter_eq, strip_lookup, (existsb_eqb_In _ _ Hl1).
      destruct (document w !! l1) as [e|]; cbn -[addClass removeClass];
        [|reflexivity].
      now rewrite removeClass_addClass, removeClass_removeClass.
    + rewrite list_lookup_alter_ne by congruence. rewrite strip_lookup.
      destruct (existsb (Nat.eqb l2) (navLinks w));
        destruct (document w !! l2) as [e|]; cbn -[addClass removeClass];
        try reflexivity.
      now rewrite removeClass_removeClass.
  - rewrite !list_lookup_alter_ne by congruence. rewrite !strip_lookup.
    destruct (Nat.eq_dec j l1) as [->|Hj1].
    + rewrite list_lookup_alter_eq, strip_lookup, (existsb_eqb_In _ _ Hl1).
      destruct (document w !! l1) as [e|]; cbn -[addClass removeClass];
        [|reflexivity].
      now rewrite removeClass_addClass, removeClass_removeClass.
    + rewrite list_lookup_alter_ne by congruence. rewrite strip_lookup.
      destruct (existsb (Nat.eqb j) (navLinks w)); [|reflexivity].
      destruct (document w !! j) as [e|]; cbn -[removeClass]; [|reflexivity].
      now rewrite removeClass_removeClass.
Qed.

Lemma filter_nothing {A : Type} (f : A -> bool) (ls : list A) :
  (forall x, In x ls -> f x = false) -> List.filter f ls = [].
Proof.
  induction ls as [|x ls IH]; intros Hf; [reflexivity|].
  cbn [List.filter]. rewrite (Hf x) by now left.
  apply IH. intros k Hk. apply Hf. now right.
Qed.

Lemma setActiveLink_outcomes (sid : string) (w : World) :
  match setActiveLink sid w with
  | Normal _ w' => w' = w \/ exists l, w' = marked l w
  | Throw x w' =>
      x = SyntaxError /\ w' = w /\
      parseSelector (dataTargetSelector sid) = Invalid
  | Unknown => parseSelector (dataTargetSelector sid) = Unmodelled
  end.
Proof.
  destruct (parseSelector (dataTargetSelector sid)) as [s| |] eqn:Hparse.
  - destruct (head (selectAll s (document w))) as [l|] eqn:Hl.
    + rewrite (setActiveLink_found _ _ _ _ Hparse Hl). right. eauto.
    + rewrite (setActiveLink_missing _ _ _ Hparse Hl). now left.
  - rewrite (setActiveLink_invalid _ _ Hparse). now repeat split.
  - unfold setActiveLink, bind.
    now rewrite (querySelector_unmodelled _ _ Hparse).
Qed.

Lemma onEntry_outcomes (entry : Entry) (w : World) :
  match onEntry entry w with
  | Normal _ w' => marksOnly w w'
  | Throw x w' =>
      x = SyntaxError /\ w' = w /\ isIntersecting entry = true /\
      parseSelector (dataTargetSelector (toJSString (sectionIdOf w entry)))
      = Invalid
  | Unknown => True
  end.
Proof.
  unfold onEntry. destruct (isIntersecting entry); [|apply marksOnly_refl].
  unfold bind. rewrite getAttribute_id.
  pose proof (setActiveLink_outcomes (toJSString (sectionIdOf w entry)) w) as H.
  destruct (setActiveLink _ w) as [[] w'|x w'|]; [| |exact I].
  - destruct H as [-> | [l ->]]; [apply marksOnly_refl | apply marked_marksOnly].
  - destruct H as (-> & -> & Hp). now repeat split.
Qed.

(** Within the modelled texts a whole batch completes. *)
Lemma observerCallback_within (entries : list Entry) :
  forall w, forallb (withinFragment w) entries = true ->
            observerCallback entries w <> Unknown.
Proof.
  induction entries as [|e r IH]; intros w Hf; [discriminate|].
  cbn [forallb] in Hf. apply andb_true_iff in Hf as [He Hr].
  rewrite observerCallback_cons.
  pose proof (onEntry_outcomes e w) as Ho.
  pose proof (onEntry_within_completes _ _ He) as Hc.
  destruct (onEntry e w) as [[] w1|x1 w1|]; [|discriminate|exact Hc].
  apply IH. now rewrite (forallb_withinFragment _ _ _ Ho).
Qed.

(** *** The click listeners *)

(** X1.  A click on a NavLink whose href is a hash and an identifier
    scrolls, smoothly and to the start, to the first element of the
    document that has this id, section or not, after it has suppressed
    the default action; it asks for no other scroll. *)
Theorem X1_click_scrolls_to_first_match
    (w : World) (link : nat) (id : string) (t : nat) (e : Element) :
  hrefOf w link = Some ("#" ++ id) ->
  isIdent id = true ->
  document w !! t = Some e ->
  attrIs "id" id e = true ->
  (forall j e', j < t -> document w !! j = Some e' -> attrIs "id" id e' = false) ->
  navLinkClick link w
  = Normal tt (addEffects [PreventDefault; ScrollIntoView t smoothToStart] w).
Proof.
  intros Hh Hid He Hp Hbefore. rewrite navLinkClick_run, Hh.
  cbn [toJSString append]. rewrite (parse_hash_ident _ Hid).
  unfold selectAll.
  now rewrite (head_matchingFrom_first (matches (IdSel id)) _ 0 t e He Hp Hbefore).
Qed.

(** The link to about scrolls to the div called about at position 3, not
    to the section of the same id at position 5. *)
Lemma X1_witness :
  navLinkClick 1 (started twinPage 0)
  = Normal tt (addEffects [PreventDefault; ScrollIntoView 3 smoothToStart]
                 (started twinPage 0)).
Proof.
  apply (X1_click_scrolls_to_first_match (started twinPage 0) 1 "about" 3
           (mkElement "div" [("id", "about")] [])); try reflexivity.
  intros j e' Hj He'.
  destruct j as [|[|[|j]]]; [injection He' as <-; reflexivity.. | lia].
Defined.

(** X2.  One run of a click listener whose lookup text the selector
    reader models (the logo listener always, a NavLink listener when the
    href reads as a selector or is a syntax error for certain) completes;
    it first suppresses the default action and then asks for at most one
    scroll, to an element of the document, smooth and to the start; it
    changes nothing else in the world.  When it throws, it has asked for
    no scroll. *)
Theorem X2_click_footprint (h : Handler) (w : World) :
  clickWithinFragment w h = true ->
  match runHandler h w with
  | Normal _ w' =>
      w' = addEffects [PreventDefault] w \/
      exists t, is_Some (document w !! t) /\
                w' = addEffects [PreventDefault; ScrollIntoView t smoothToStart] w
  | Throw _ w' => w' = addEffects [PreventDefault] w
  | Unknown => False
  end.
Proof.
  assert (Hsome : forall s t, head (selectAll s (document w)) = Some t ->
                              is_Some (document w !! t)).
  { intros s t Ht. apply head_In, selectAll_In in Ht as (e & He & _). eauto. }
  destruct h as [link|]; cbn [runHandler clickWithinFragment]; intros Hf.
  - rewrite navLinkClick_run.
    destruct (parseSelector _) as [s| |] eqn:Hp; [|reflexivity|discriminate].
    destruct (head _) as [t|] eqn:Ht; [right | now left]. eauto.
  - rewrite logoClick_run.
    destruct (head _) as [t|] eqn:Ht; [right | reflexivity]. eauto.
Qed.

(** A click on the NavLink whose href is a bare hash throws, after the
    default action has been suppressed and before any scroll. *)
Lemma X2_witness :
  match runHandler (NavClick 1) (started pageHashLink 0) with
  | Normal _ w' =>
      w' = addEffects [PreventDefault] (started pageHashLink 0) \/
      exists t, is_Some (document (started pageHashLink 0) !! t) /\
                w' = addEffects [PreventDefault; ScrollIntoView t smoothToStart]
                       (started pageHashLink 0)
  | Throw _ w' => w' = addEffects [PreventDefault] (started pageHashLink 0)
  | Unknown => False
  end.
Proof.
  apply (X2_click_footprint (NavClick 1) (started pageHashLink 0)).
  reflexivity.
Defined.

(** X15.  A NavLink without href is looked up as the type null: the click
    never throws, and it scrolls exactly when the document has an element
    of that name, to the first one. *)
Theorem X15_click_without_href (w : World) (link : nat) :
  hrefOf w link = None ->
  navLinkClick link w
  = Normal tt
      (addEffects
         (PreventDefault ::
          match head (selectAll (TypeSel "null") (document w)) with
          | Some t => [ScrollIntoView t smoothToStart]
          | None => []
          end) w).
Proof.
  intros Hh. rewrite navLinkClick_run, Hh, parse_null.
  now destruct (head _).
Qed.

(** The second NavLink of the page has no href. *)
Lemma X15_witness :
  navLinkClick 2 (started twinPage 0)
  = Normal tt (addEffects [PreventDefault] (started twinPage 0)).
Proof. apply (X15_click_without_href (started twinPage 0) 2). reflexivity. Defined.

(** *** The top-level code *)


(** X4.  The top-level code runs to its end exactly when the document has
    an element of class logo; the listener of the logo then goes to the
    first such element only and is the last listener registered.
    Without a logo the code throws a TypeError, never another exception,
    with the listeners of the NavLinks in place. *)
Theorem X4_script_outcome (doc : list Element) (y : Z) :
  match head (selectAll (ClassSel "logo") doc) with
  | Some logo =>
      exists w,
        script (page doc y) = Normal tt w /\
        listeners w
        = (List.map (fun l => (l, NavClick l))
                    (selectAll (ClassSel "nav-link") doc)
           ++ [(logo, LogoClick)])%list
  | None =>
      exists w,
        script (page doc y) = Throw TypeError w /\
        listeners w
        = List.map (fun l => (l, NavClick l))
                   (selectAll (ClassSel "nav-link") doc)
  end.
Proof.
  rewrite script_run.
  rewrite <- (selectAll_sameButActive (ClassSel "logo") doc (seeded doc) eq_refl
                (started_marksOnly doc y)).
  destruct (head _); eexists; split; reflexivity.
Qed.

(** X5.  The top-level code writes to one element at most: the first
    NavLink, which gets the token active after the tokens it has (and
    keeps its class list if active is among them).  Every other element
    is as in the markup, whatever markers the markup has. *)
Theorem X5_script_writes_first_link_only (doc : list Element) (y : Z) :
  exists w,
    after (script (page doc y)) = Some w /\
    length (document w) = length doc /\
    forall j e,
      doc !! j = Some e ->
      document w !! j
      = Some (if decide (head (selectAll (ClassSel "nav-link") doc) = Some j)
              then addClass "active" e else e).
Proof.
  assert (Hdoc : length (seeded doc) = length doc /\
                 forall j e, doc !! j = Some e ->
                   seeded doc !! j
                   = Some (if decide (head (selectAll (ClassSel "nav-link") doc)
                                      = Some j)
                           then addClass "active" e else e)).
  { unfold seeded. destruct (selectAll (ClassSel "nav-link") doc) as [|first ls].
    - split; [reflexivity|]. intros j e He. cbn [head].
      destruct (decide (None = Some j)); [discriminate | exact He].
    - split; [apply length_alter|]. intros j e He. cbn [head].
      destruct (decide (Some first = Some j)) as [[= ->]|Hne].
      + now rewrite list_lookup_alter_eq, He.
      + rewrite list_lookup_alter_ne by congruence. exact He. }
  rewrite script_run. destruct (head (selectAll (ClassSel "logo") _));
    eexists; (split; [reflexivity | exact Hdoc]).
Qed.

(** *** The marker code *)

(** X6.  [removeAllActiveClasses] always returns; afterwards no NavLink
    of the collection is marked, elements outside the collection are
    untouched (an active token on one of them stays), and no element has
    lost an attribute or a token other than active. *)
Theorem X6_removeAllActiveClasses_clears_links (w : World) :
  exists w',
    removeAllActiveClasses w = Normal tt w' /\
    activeLinks w' = [] /\
    (forall j, ~ In j (navLinks w) -> document w' !! j = document w !! j) /\
    marksOnly w w'.
Proof.
  exists (withDocument (strip "active" (navLinks w) (document w)) w).
  split; [apply removeAllActiveClasses_run|]. split; [|split].
  - unfold activeLinks. change (navLinks (withDocument _ w)) with (navLinks w).
    apply filter_nothing, isActive_strip.
  - intros j Hj. cbn [withDocument document]. now apply strip_outside.
  - split; [|reflexivity]. cbn [withDocument document].
    apply strip_sameButActive, Forall2_sameButActive_refl.
Qed.

(** X7.  When the collection is the one of this document and the section
    identifier is plain text that is the [data-target] of a NavLink,
    [setActiveLink] returns with the first such NavLink as the only
    marked NavLink.  It clears the marker of NavLinks only: every element
    outside the collection is exactly as before, and no element has lost
    an attribute or a token other than active. *)
Theorem X7_setActiveLink_footprint (w : World) (sid : string) (l : nat) :
  installed w ->
  quotable sid = true ->
  linkOf w sid = Some l ->
  exists w',
    setActiveLink sid w = Normal tt w' /\
    activeLinks w' = [l] /\
    dataTargetIs w' sid l = true /\
    (forall j, ~ In j (navLinks w) -> document w' !! j = document w !! j) /\
    marksOnly w w'.
Proof.
  intros Hi Hq Hl. pose proof (linkOf_In _ _ _ Hl) as Hin.
  exists (marked l w). split; [|split; [|split; [|split]]].
  - apply (setActiveLink_found _ _ _ _ (parse_dataTargetSelector sid Hq)).
    now rewrite linkOf_head.
  - now apply marked_activeLinks.
  - rewrite (marksOnly_dataTargetIs _ _ _ _ (marked_marksOnly l w)).
    unfold linkOf in Hl. now apply find_some in Hl.
  - intros j Hj. apply marked_outside; [exact Hj|]. intros ->. contradiction.
  - apply marked_marksOnly.
Qed.

(** On the page whose home section carries the token active itself, the
    notification for about moves the marker of the NavLinks and leaves
    the section as it is. *)
Lemma X7_witness :
  exists w',
    setActiveLink "about" (started decoratedPage 0) = Normal tt w' /\
    activeLinks w' = [2] /\
    dataTargetIs w' "about" 2 = true /\
    (forall j, ~ In j (navLinks (started decoratedPage 0)) ->
               document w' !! j = document (started decoratedPage 0) !! j) /\
    marksOnly (started decoratedPage 0) w'.
Proof.
  apply (X7_setActiveLink_footprint (started decoratedPage 0) "about" 2).
  - apply started_installed.
  - reflexivity.
  - reflexivity.
Defined.

(** X8.  The observer callback throws nothing but a SyntaxError, and only
    at an entry that reports its section inside the band under an
    identifier that makes the selector text invalid.  The world of the
    throw is the world the entries before that one left by a normal run:
    they have taken effect, the throwing entry and all later ones have
    written nothing. *)
Theorem X8_callback_throw_point
    (entries : list Entry) (w w' : World) (x : Exception) :
  observerCallback entries w = Throw x w' ->
  x = SyntaxError /\
  exists before entry later,
    entries = (before ++ entry :: later)%list /\
    observerCallback before w = Normal tt w' /\
    isIntersecting entry = true /\
    parseSelector (dataTargetSelector (toJSString (sectionIdOf w' entry)))
    = Invalid.
Proof.
  revert w. induction entries as [|e r IH]; intros w; [discriminate|].
  rewrite observerCallback_cons.
  pose proof (onEntry_outcomes e w) as He.
  destruct (onEntry e w) as [[] w1|x1 w1|] eqn:Hrun; [| |discriminate].
  - intros Hr. destruct (IH _ Hr) as (-> & before & entry & later & -> & Hb & Hin & Hp).
    split; [reflexivity|]. exists (e :: before), entry, later.
    split; [reflexivity|]. split; [|now split].
    now rewrite observerCallback_cons, Hrun.
  - intros [= <- <-]. destruct He as (-> & -> & Hin & Hp).
    split; [reflexivity|]. exists [], e, r. now repeat split.
Qed.

(** Home enters, then the section whose id is a double quote, then about:
    home is marked, about never is. *)
Lemma X8_witness :
  exists w',
    observerCallback [mkEntry true 4; mkEntry true 3; mkEntry true 5]
                     (started pageQuoteId 0) = Throw SyntaxError w' /\
    activeLinks w' = [2] /\
    exists before entry later,
      [mkEntry true 4; mkEntry true 3; mkEntry true 5]
      = (before ++ entry :: later)%list /\
      observerCallback before (started pageQuoteId 0) = Normal tt w' /\
      isIntersecting entry = true /\
      parseSelector (dataTargetSelector (toJSString (sectionIdOf w' entry)))
      = Invalid.
Proof.
  eexists. split; [vm_compute; reflexivity|]. split; [reflexivity|].
  apply (X8_callback_throw_point
           [mkEntry true 4; mkEntry true 3; mkEntry true 5]
           (started pageQuoteId 0) _ SyntaxError).
  vm_compute. reflexivity.
Defined.

(** X9.  A batch can be cut anywhere: processing two batches one after
    the other as one batch gives what the second gives in the world the
    first left, as long as the first returns; when the first throws, the
    joint batch throws the same in the same world and the second is not
    looked at. *)
Theorem X9_callback_of_joined_batches (a b : list Entry) (w : World) :
  observerCallback (a ++ b)%list w
  = match observerCallback a w with
    | Normal _ w1 => observerCallback b w1
    | Throw x w1 => Throw x w1
    | Unknown => Unknown
    end.
Proof. apply forEach_app. Qed.

(** X10.  A batch in which the id of every section reported inside is
    a text the selector reader models completes, and the observer
    callback has written nothing but active tokens: the world it leaves,
    returned or thrown, has the same calls into the host on record (it
    never scrolls), the same collections and listeners, and every element
    has its name, its attributes and its other tokens.  What it throws is
    a syntax error. *)
Theorem X10_callback_footprint (entries : list Entry) (w : World) :
  forallb (withinFragment w) entries = true ->
  match observerCallback entries w with
  | Normal _ w' => marksOnly w w' /\ effects w' = effects w
  | Throw x w' => x = SyntaxError /\ marksOnly w w' /\ effects w' = effects w
  | Unknown => False
  end.
Proof.
  assert (Heff : forall w w', marksOnly w w' ->
                              marksOnly w w' /\ effects w' = effects w).
  { intros v w' Hm. split; [exact Hm|]. destruct Hm as [_ ->]. reflexivity. }
  revert w. induction entries as [|e r IH]; intros w Hf.
  - apply Heff, marksOnly_refl.
  - cbn [forallb] in Hf. apply andb_true_iff in Hf as [He Hr].
    rewrite observerCallback_cons.
    pose proof (onEntry_outcomes e w) as Ho.
    pose proof (onEntry_within_completes _ _ He) as Hc.
    destruct (onEntry e w) as [[] w1|x1 w1|]; [| |now apply Hc].
    + rewrite <- (forallb_withinFragment _ _ _ Ho) in Hr.
      specialize (IH w1 Hr).
      destruct (observerCallback r w1) as [[] w'|x w'|]; [| |exact IH].
      * destruct IH as [Hm _]. apply Heff. eapply marksOnly_trans; eauto.
      * destruct IH as (Hx & Hm & _). split; [exact Hx|].
        apply Heff. eapply marksOnly_trans; eauto.
    + destruct Ho as (-> & -> & _). split; [reflexivity|].
      apply Heff, marksOnly_refl.
Qed.

(** About enters, then the section whose id is a double quote: the batch
    throws a syntax error with the link to about marked and nothing else
    changed. *)
Lemma X10_witness :
  match observerCallback [mkEntry true 5; mkEntry true 3] (started pageQuoteId 0) with
  | Normal _ w' =>
      marksOnly (started pageQuoteId 0) w' /\
      effects w' = effects (started pageQuoteId 0)
  | Throw x w' =>
      x = SyntaxError /\
      marksOnly (started pageQuoteId 0) w' /\
      effects w' = effects (started pageQuoteId 0)
  | Unknown => False
  end.
Proof.
  apply (X10_callback_footprint [mkEntry true 5; mkEntry true 3]
           (started pageQuoteId 0)).
  reflexivity.
Defined.

(** X11.  Entries that report their section outside the band can be
    struck from a batch, wherever they stand, without any change to what
    the callback does. *)
Theorem X11_leaving_entries_can_be_dropped (entries : list Entry) (w : World) :
  observerCallback (List.filter isIntersecting entries) w
  = observerCallback entries w.
Proof.
  revert w. induction entries as [|e r IH]; intros w; [reflexivity|].
  cbn [List.filter]. destruct (isIntersecting e) eqn:He.
  - rewrite !observerCallback_cons.
    destruct (onEntry e w) as [[] w1|x w1|]; [apply IH | reflexivity..].
  - rewrite observerCallback_cons, (onEntry_outside _ _ He). apply IH.
Qed.

(** X12.  A batch of plain entries has no memory: the world it leaves is
    the very world one call of [setActiveLink] for the last entry with a
    NavLink would leave, whatever was marked before and whatever the
    earlier entries marked; without such an entry the world is as it
    was. *)
Theorem X12_batch_is_one_mark (w : World) (entries : list Entry) :
  installed w ->
  forallb (plainEntry w) entries = true ->
  observerCallback entries w
  = Normal tt (match winner w entries with
               | Some l => marked l w
               | None => w
               end).
Proof.
  unfold winner, enteringLinks. revert w.
  induction entries as [|e r IH]; intros w Hi Hp; [reflexivity|].
  cbn [forallb] in Hp. apply andb_true_iff in Hp as [He Hr].
  rewrite observerCallback_cons, (onEntry_plain _ _ Hi He).
  set (w1 := match enteringLink w e with Some l => marked l w | None => w end).
  assert (Hm1 : marksOnly w w1).
  { subst w1. destruct (enteringLink w e);
      [apply marked_marksOnly | apply marksOnly_refl]. }
  assert (Hr1 : forallb (plainEntry w1) r = true).
  { rewrite <- Hr. clear -Hm1. induction r as [|x r IHr]; [reflexivity|].
    cbn [forallb]. now rewrite IHr, (marksOnly_plainEntry _ _ _ Hm1). }
  rewrite (IH w1 (marksOnly_installed _ _ Hm1 Hi) Hr1).
  change (omap (enteringLink w1) r) with (enteringLinks w1 r).
  rewrite (marksOnly_enteringLinks _ _ _ Hm1).
  change (omap (enteringLink w) (e :: r))
    with (match enteringLink w e with
          | Some l => l :: enteringLinks w r
          | None => enteringLinks w r
          end).
  subst w1. destruct (enteringLink w e) as [l1|] eqn:Hl1; [|reflexivity].
  rewrite last_cons. destruct (last (enteringLinks w r)) as [l|]; [|reflexivity].
  now rewrite (marked_marked _ _ _ (enteringLink_In _ _ _ Hl1)).
Qed.

(** From the page with two NavLinks marked by the markup: projects,
    home leaving, about, in one batch, is the same as about alone. *)
Lemma X12_witness :
  observerCallback [mkEntry true 6; mkEntry false 4; mkEntry true 5]
                   (started crowdedPage 0)
  = Normal tt (marked 2 (started crowdedPage 0)).
Proof.
  apply (X12_batch_is_one_mark (started crowdedPage 0)
           [mkEntry true 6; mkEntry false 4; mkEntry true 5]).
  - apply started_installed.
  - reflexivity.
Defined.

(** X14.  The observer callback never takes the marker away without
    putting it somewhere: when the collection is the one of this
    document, some NavLink is marked before a batch, and the id of every
    section the batch reports inside is a text the selector reader
    models, then the batch completes, and exactly the same NavLinks are
    marked afterwards or exactly one is, whether the batch returns or
    throws. *)
Theorem X14_marker_never_lost (w : World) (entries : list Entry) :
  installed w ->
  1 <= activeCount w ->
  forallb (withinFragment w) entries = true ->
  match observerCallback entries w with
  | Normal _ w' => 1 <= activeCount w' /\ (w' = w \/ activeCount w' = 1)
  | Throw _ w' => 1 <= activeCount w' /\ (w' = w \/ activeCount w' = 1)
  | Unknown => False
  end.
Proof.
  intros Hi Hc Hf. pose proof (observerCallback_any entries w) as Hany.
  pose proof (observerCallback_within entries w Hf) as Hw.
  destruct (observerCallback entries w) as [[] w'|x w'|]; [| |now apply Hw];
    destruct (Hany w' Hi eq_refl) as (_ & _ & [-> | H1]);
    (split; [lia | tauto]).
Qed.

(** Home enters, then the section whose id is a double quote: the batch
    throws and home stays marked. *)
Lemma X14_witness :
  match observerCallback [mkEntry true 4; mkEntry true 3] (started pageQuoteId 0) with
  | Normal _ w' =>
      1 <= activeCount w' /\ (w' = started pageQuoteId 0 \/ activeCount w' = 1)
  | Throw _ w' =>
      1 <= activeCount w' /\ (w' = started pageQuoteId 0 \/ activeCount w' = 1)
  | Unknown => False
  end.
Proof.
  apply (X14_marker_never_lost (started pageQuoteId 0)
           [mkEntry true 4; mkEntry true 3]).
  - apply started_installed.
  - cbn. lia.
  - reflexivity.
Defined.

(** *** The page over time *)






